(** * NER and POS tagging of a CSV of headlines: model of [ner_and_pos_tagging.py]

    The script loads a CSV into a table, runs a pretrained language model over
    the [title] column, prints the five most frequent entity texts and writes
    the augmented table.  The table, the exceptions Python raises, the console
    and the written file are modelled explicitly; the language model and the
    two file operations of pandas are inputs of the run ([Env]). *)

From Stdlib Require Import List String Ascii ZArith Arith Bool Lia.
From Stdlib Require Import DecimalString Permutation Sorted.
Import ListNotations.
Local Open Scope string_scope.
Local Open Scope list_scope.

Set Implicit Arguments.

(** ** Python values and exceptions *)

(** The exceptions the script can meet.  [FileNotFoundError] and
    [PermissionError] are subclasses of [OSError] in Python. *)
Inductive exn : Type :=
| FileNotFoundError
| PermissionError
| OSError
| KeyError (key : string)
| ValueError (msg : string)
| TypeError (msg : string).

(** [except OSError] catches the class and its subclasses. *)
Definition isinstance_OSError (e : exn) : bool :=
  match e with
  | FileNotFoundError | PermissionError | OSError => true
  | _ => false
  end.

(** [except FileNotFoundError] catches that class only. *)
Definition isinstance_FileNotFoundError (e : exn) : bool :=
  match e with
  | FileNotFoundError => true
  | _ => false
  end.

(** A cell of the table.  The CSV reader yields text, integers, booleans and
    floats (a missing cell is the float nan); the annotator stores Python
    lists of 2-tuples of text.  The script never computes with a float, it
    only renders it, so a float is carried as its rendering. *)
Inductive cell : Type :=
| CStr (s : string)
| CInt (z : Z)
| CBool (b : bool)
| CFloat (repr : string)
| CPairs (l : list (string * string)).

Definition nl : string := String (ascii_of_nat 10) EmptyString.

Definition str_of_nat (n : nat) : string :=
  NilEmpty.string_of_uint (Nat.to_uint n).

Definition str_of_Z (z : Z) : string :=
  NilZero.string_of_int (Z.to_int z).

(** Python's repr of a text, used when a list of tuples is rendered. *)
Definition repr_str (s : string) : string := "'" ++ s ++ "'".

Definition repr_pair (p : string * string) : string :=
  "(" ++ repr_str (fst p) ++ ", " ++ repr_str (snd p) ++ ")".

(** [str(text)]: the textual representation of a cell. *)
Definition py_str (c : cell) : string :=
  match c with
  | CStr s => s
  | CInt z => str_of_Z z
  | CBool true => "True"
  | CBool false => "False"
  | CFloat r => r
  | CPairs l => "[" ++ String.concat ", " (map repr_pair l) ++ "]"
  end.

(** ** The table *)

(** A DataFrame: the length of its index and its columns in order. *)
Record DataFrame : Type := mkDataFrame {
  nrows : nat;
  columns : list (string * list cell)
}.

Fixpoint lookup_column (name : string) (cols : list (string * list cell))
  : option (list cell) :=
  match cols with
  | [] => None
  | (n, v) :: rest => if String.eqb name n then Some v else lookup_column name rest
  end.

Fixpoint assign_column (name : string) (v : list cell)
  (cols : list (string * list cell)) : list (string * list cell) :=
  match cols with
  | [] => [(name, v)]
  | (n, old) :: rest =>
      if String.eqb name n then (n, v) :: rest
      else (n, old) :: assign_column name v rest
  end.

Definition column_names (df : DataFrame) : list string :=
  map fst (columns df).

(** Every column is as long as the index, and no name is repeated. *)
Definition well_formed (df : DataFrame) : Prop :=
  Forall (fun c => List.length (snd c) = nrows df) (columns df) /\
  NoDup (column_names df).

(** ** The language model *)

Record Token : Type := mkToken { token_text : string; pos_ : string }.
Record Span : Type := mkSpan { span_text : string; label_ : string }.

(** What the model returns for a text: its tokens and its entity spans. *)
Record Doc : Type := mkDoc { doc_tokens : list Token; doc_ents : list Span }.

(** A loaded pipeline, called on a text. *)
Definition Language : Type := string -> Doc.

(** ** Effects *)

Inductive result (A : Type) : Type :=
| Ok (a : A)
| Raise (e : exn).
Arguments Ok {A} a.
Arguments Raise {A} e.

(** What a run observes of the outside: the CSV reader, the model loader and
    whether writing a CSV at a path fails. *)
Record Env : Type := mkEnv {
  read_csv : string -> result DataFrame;
  spacy_load : string -> result Language;
  to_csv_error : string -> option exn
}.

(** What a run changes: the lines printed and the files written. *)
Record State : Type := mkState {
  stdout : list string;
  written : list (string * DataFrame)
}.

Definition initial : State := mkState [] [].

(** Computations that print, write and may raise. *)
Definition M (A : Type) : Type := State -> result A * State.

Definition ret {A} (a : A) : M A := fun st => (Ok a, st).

Definition bind {A B} (m : M A) (k : A -> M B) : M B :=
  fun st =>
    match m st with
    | (Ok a, st') => k a st'
    | (Raise e, st') => (Raise e, st')
    end.

Definition raise {A} (e : exn) : M A := fun st => (Raise e, st).

Definition lift {A} (r : result A) : M A := fun st => (r, st).

(** [try: m  except <class>: h] *)
Definition try_except {A} (m : M A) (catches : exn -> bool) (h : M A) : M A :=
  fun st =>
    match m st with
    | (Ok a, st') => (Ok a, st')
    | (Raise e, st') => if catches e then h st' else (Raise e, st')
    end.

Definition print (line : string) : M unit :=
  fun st => (Ok tt, mkState (stdout st ++ [line]) (written st)).

Notation "x <- m ;; k" := (bind m (fun x => k))
  (at level 61, m at next level, right associativity).
Notation "m ;;; k" := (bind m (fun _ => k))
  (at level 61, right associativity).

(** [df[name]] *)
Definition getitem (df : DataFrame) (name : string) : M (list cell) :=
  match lookup_column name (columns df) with
  | Some v => ret v
  | None => raise (KeyError name)
  end.

(** [df[name] = values]: the values must be as many as the index. *)
Definition setitem (df : DataFrame) (name : string) (v : list cell)
  : M DataFrame :=
  if Nat.eqb (List.length v) (nrows df)
  then ret (mkDataFrame (nrows df) (assign_column name v (columns df)))
  else raise (ValueError "Length of values does not match length of index").

(** [df.to_csv(path, index=False)] *)
Definition to_csv (env : Env) (df : DataFrame) (path : string) : M unit :=
  fun st =>
    match to_csv_error env path with
    | Some e => (Raise e, st)
    | None => (Ok tt, mkState (stdout st) (written st ++ [(path, df)]))
    end.

(** ** Configuration *)

Definition INPUT_FILE : string := "data/bbc_news.csv".
Definition OUTPUT_FILE : string := "data/bbc_news_tagged.csv".

(** ** load_data *)

Definition load_data (env : Env) (filepath : string) : M (option DataFrame) :=
  try_except
    (df <- lift (read_csv env filepath) ;;
     print ("Loaded " ++ filepath ++ " with " ++ str_of_nat (nrows df) ++ " rows.") ;;;
     ret (Some df))
    isinstance_FileNotFoundError
    (print ("Error: File not found at " ++ filepath) ;;;
     ret None).

(** ** process_nlp *)

(** The inner function applied to each title. *)
Definition extract_features (nlp : Language) (text : cell)
  : list (string * string) * list (string * string) :=
  let doc := nlp (py_str text) in
  let entities := map (fun ent => (span_text ent, label_ ent)) (doc_ents doc) in
  let pos_tags := map (fun token => (token_text token, pos_ token)) (doc_tokens doc) in
  (entities, pos_tags).

(** [zip( *results )] over a sequence of 2-tuples: nothing for no tuple,
    else the firsts and the seconds. *)
Definition zip_star (results : list (list (string * string) * list (string * string)))
  : list (list cell) :=
  match results with
  | [] => []
  | _ :: _ => [map (fun r => CPairs (fst r)) results;
               map (fun r => CPairs (snd r)) results]
  end.

(** Unpacking into two targets. *)
Definition unpack2 {A} (l : list A) : M (A * A) :=
  match l with
  | [a; b] => ret (a, b)
  | _ :: _ :: _ :: _ => raise (ValueError "too many values to unpack (expected 2)")
  | _ =>
      raise (ValueError ("not enough values to unpack (expected 2, got "
                         ++ str_of_nat (List.length l) ++ ")"))
  end.

Definition process_nlp (env : Env) (df : DataFrame) : M DataFrame :=
  fun st =>
    match spacy_load env "en_core_web_sm" with
    | Raise e =>
        if isinstance_OSError e
        then (print "Error: Model not found. Please run: python -m spacy download en_core_web_sm" ;;;
              ret df) st
        else (Raise e, st)
    | Ok nlp =>
        (print "Processing text (this may take a moment)..." ;;;
         titles <- getitem df "title" ;;
         let results := map (extract_features nlp) titles in
         cols <- unpack2 (zip_star results) ;;
         df1 <- setitem df "entities" (fst cols) ;;
         df2 <- setitem df1 "pos_tags" (snd cols) ;;
         ret df2) st
    end.

(** ** show_stats *)

(** [[ent[0] for ent in row]] for one cell of the entities column.  A list of
    tuples gives the first components; a text is iterated character by
    character, and the first item of a one-character text is itself; a number
    is not iterable. *)
Definition row_entity_texts (row : cell) : result (list string) :=
  match row with
  | CPairs l => Ok (map fst l)
  | CStr s => Ok (map (fun c => String c EmptyString) (list_ascii_of_string s))
  | CInt _ => Raise (TypeError "'int' object is not iterable")
  | CBool _ => Raise (TypeError "'bool' object is not iterable")
  | CFloat _ => Raise (TypeError "'float' object is not iterable")
  end.

(** [[ent[0] for row in column for ent in row]] *)
Fixpoint flatten_entities (column : list cell) : result (list string) :=
  match column with
  | [] => Ok []
  | row :: rest =>
      match row_entity_texts row with
      | Raise e => Raise e
      | Ok ents =>
          match flatten_entities rest with
          | Raise e => Raise e
          | Ok more => Ok (ents ++ more)
          end
      end
  end.

(** One step of [Counter]'s counting: [mapping[elem] = mapping.get(elem, 0) + 1]
    on a dict, which keeps its keys in insertion order. *)
Fixpoint count_element (elem : string) (mapping : list (string * nat))
  : list (string * nat) :=
  match mapping with
  | [] => [(elem, 1)]
  | (k, c) :: rest =>
      if String.eqb elem k then (k, S c) :: rest
      else (k, c) :: count_element elem rest
  end.

(** [Counter(iterable)] *)
Definition Counter (iterable : list string) : list (string * nat) :=
  fold_left (fun mapping elem => count_element elem mapping) iterable [].

(** [sorted(items, key=itemgetter(1), reverse=True)]: descending by count,
    items of equal count staying in their original order. *)
Fixpoint insert_desc (x : string * nat) (l : list (string * nat))
  : list (string * nat) :=
  match l with
  | [] => [x]
  | y :: rest =>
      if Nat.ltb (snd x) (snd y) then y :: insert_desc x rest
      else x :: y :: rest
  end.

Fixpoint sorted_desc (items : list (string * nat)) : list (string * nat) :=
  match items with
  | [] => []
  | x :: rest => insert_desc x (sorted_desc rest)
  end.

(** [counter.most_common(n)], that is [heapq.nlargest(n, items, key=count)],
    documented as the first [n] of the descending stable sort. *)
Definition most_common (n : nat) (counter : list (string * nat))
  : list (string * nat) :=
  firstn n (sorted_desc counter).

(** The ranking [show_stats] prints. *)
Definition top_ents (all_ents : list string) : list (string * nat) :=
  most_common 5 (Counter all_ents).

Definition entity_line (p : string * nat) : string :=
  "   - " ++ fst p ++ ": " ++ str_of_nat (snd p).

Fixpoint print_all (lines : list string) : M unit :=
  match lines with
  | [] => ret tt
  | l :: rest => print l ;;; print_all rest
  end.

Definition show_stats (df : DataFrame) : M unit :=
  column <- getitem df "entities" ;;
  all_ents <- lift (flatten_entities column) ;;
  match all_ents with
  | [] => print (nl ++ " No entities found.")
  | _ :: _ =>
      print (nl ++ " Top 5 Entities Found in Headlines:") ;;;
      print_all (map entity_line (top_ents all_ents))
  end.

(** ** main *)

Definition main (env : Env) : M unit :=
  loaded <- load_data env INPUT_FILE ;;
  match loaded with
  | Some df =>
      df_tagged <- process_nlp env df ;;
      show_stats df_tagged ;;;
      to_csv env df_tagged OUTPUT_FILE ;;;
      print (nl ++ " Processed data saved successfully to: " ++ OUTPUT_FILE)
  | None => ret tt
  end.

(** ** A small run *)

Module Demo.

(** A stub model: every word separated by a space is a token tagged X, a
    text of spaces only is one token tagged SPACE, and a word is an entity
    when it starts with an upper-case letter. *)
Fixpoint words_from (acc : string) (s : string) : list string :=
  match s with
  | EmptyString => match acc with EmptyString => [] | _ => [acc] end
  | String c rest =>
      if Ascii.eqb c " "%char
      then match acc with
           | EmptyString => words_from EmptyString rest
           | _ => acc :: words_from EmptyString rest
           end
      else words_from (acc ++ String c EmptyString) rest
  end.

Definition is_upper (c : ascii) : bool :=
  Nat.leb 65 (nat_of_ascii c) && Nat.leb (nat_of_ascii c) 90.

Definition capitalised (w : string) : bool :=
  match w with
  | EmptyString => false
  | String c _ => is_upper c
  end.

Definition nlp : Language := fun text =>
  let ws := words_from EmptyString text in
  mkDoc (match ws, text with
         | [], String _ _ => [mkToken text "SPACE"]
         | _, _ => map (fun w => mkToken w "X") ws
         end)
        (map (fun w => mkSpan w "GPE") (filter capitalised ws)).

Definition headlines : DataFrame :=
  mkDataFrame 3
    [("title", [CStr "London calling"; CStr "rain in Paris"; CInt 2024]);
     ("pubDate", [CStr "Mon"; CStr "Tue"; CStr "Wed"])].

Definition env : Env :=
  mkEnv (fun _ => Ok headlines) (fun _ => Ok nlp) (fun _ => None).

(** The same files, the model not installed. *)
Definition env_no_model : Env :=
  mkEnv (fun _ => Ok headlines) (fun _ => Raise OSError) (fun _ => None).

(** No input file. *)
Definition env_no_file : Env :=
  mkEnv (fun _ => Raise FileNotFoundError) (fun _ => Ok nlp) (fun _ => None).

(** A CSV with a header and no row. *)
Definition header_only : DataFrame :=
  mkDataFrame 0 [("title", []); ("pubDate", [])].

Definition env_header_only : Env :=
  mkEnv (fun _ => Ok header_only) (fun _ => Ok nlp) (fun _ => None).

(** A CSV without a title column. *)
Definition untitled : DataFrame :=
  mkDataFrame 2 [("headline", [CStr "London calling"; CStr "rain in Paris"])].

Definition env_untitled : Env :=
  mkEnv (fun _ => Ok untitled) (fun _ => Ok nlp) (fun _ => None).

End Demo.

(** ** Vocabulary of the properties *)

(** The name [process_nlp] passes to [spacy.load]. *)
Definition model_name : string := "en_core_web_sm".

(** The two cells the annotator derives from a title. *)
Definition entities_of (nlp : Language) (text : cell) : cell :=
  CPairs (fst (extract_features nlp text)).

Definition pos_tags_of (nlp : Language) (text : cell) : cell :=
  CPairs (snd (extract_features nlp text)).

(** The table the annotator builds from the titles. *)
Definition tagged (nlp : Language) (df : DataFrame) (titles : list cell)
  : DataFrame :=
  mkDataFrame (nrows df)
    (assign_column "pos_tags" (map (pos_tags_of nlp) titles)
       (assign_column "entities" (map (entities_of nlp) titles) (columns df))).

(** The state after one more printed line. *)
Definition after_print (line : string) (st : State) : State :=
  mkState (stdout st ++ [line]) (written st).

(** What the output keeps of the input: the rows, every column other than the
    two derived ones, and the columns' order, with at most the two derived
    names added at the end. *)
Definition carried_through (df out : DataFrame) : Prop :=
  nrows out = nrows df /\
  (forall c, c <> "entities" -> c <> "pos_tags" ->
             lookup_column c (columns out) = lookup_column c (columns df)) /\
  (exists added, column_names out = column_names df ++ added /\
                 incl added ["entities"; "pos_tags"]).

(** Computations that write no file. *)
Definition keeps_files {A} (m : M A) : Prop :=
  forall st, written (snd (m st)) = written st.

(** [counter[key]]: the count of a key, zero when it is missing. *)
Fixpoint counter_get (key : string) (mapping : list (string * nat)) : nat :=
  match mapping with
  | [] => 0
  | (k, c) :: rest => if String.eqb key k then c else counter_get key rest
  end.

(** [l.index(x)]: where [x] is first met in [l]. *)
Fixpoint first_index (x : string) (l : list string) : option nat :=
  match l with
  | [] => None
  | y :: rest =>
      if String.eqb x y then Some 0 else option_map S (first_index x rest)
  end.

(** Some occurrence of [a] comes before some occurrence of [b]. *)
Fixpoint before {A} (a b : A) (l : list A) : Prop :=
  match l with
  | [] => False
  | x :: rest => (x = a /\ In b rest) \/ before a b rest
  end.

(** Descending by count. *)
Definition count_ge (x y : string * nat) : Prop := snd y <= snd x.

(** The lines [show_stats] prints for a flattened list of entity texts. *)
Definition stats_lines (all_ents : list string) : list string :=
  match all_ents with
  | [] => [(nl ++ " No entities found.")%string]
  | _ :: _ =>
      (nl ++ " Top 5 Entities Found in Headlines:")%string
      :: map entity_line (top_ents all_ents)
  end.

(** The entity texts of a tagged table, row after row. *)
Definition tagged_entity_texts (nlp : Language) (titles : list cell)
  : list string :=
  map fst (List.concat (map (fun t => fst (extract_features nlp t)) titles)).

(** The lines a full run prints before it saves. *)
Definition run_lines (nlp : Language) (df : DataFrame) (titles : list cell)
  : list string :=
  ("Loaded " ++ INPUT_FILE ++ " with " ++ str_of_nat (nrows df) ++ " rows.")%string
  :: "Processing text (this may take a moment)..."
  :: stats_lines (tagged_entity_texts nlp titles).

(** A cell a [for] loop can run over: a text or a list. *)
Definition iterable (c : cell) : bool :=
  match c with
  | CStr _ | CPairs _ => true
  | CInt _ | CBool _ | CFloat _ => false
  end.

(** * Properties *)

(** ** Tables *)

Lemma lookup_assign_same name v cols :
  lookup_column name (assign_column name v cols) = Some v.
Proof.
  induction cols as [|[n old] rest IH]; simpl.
  - now rewrite String.eqb_refl.
  - destruct (String.eqb name n) eqn:E; simpl; rewrite E; auto.
Qed.

Lemma lookup_assign_other name other v cols :
  other <> name ->
  lookup_column other (assign_column name v cols) = lookup_column other cols.
Proof.
  intros Hne. induction cols as [|[n old] rest IH]; simpl.
  - destruct (String.eqb other name) eqn:E; auto.
    apply String.eqb_eq in E. contradiction.
  - destruct (String.eqb name n) eqn:E; simpl.
    + apply String.eqb_eq in E. subst n.
      destruct (String.eqb other name) eqn:E'; auto.
      apply String.eqb_eq in E'. contradiction.
    + now rewrite IH.
Qed.

Lemma lookup_none_not_in name cols :
  lookup_column name cols = None <-> ~ In name (map fst cols).
Proof.
  induction cols as [|[n v] rest IH]; simpl.
  - tauto.
  - destruct (String.eqb name n) eqn:E.
    + apply String.eqb_eq in E. subst. split; [discriminate | tauto].
    + apply String.eqb_neq in E. rewrite IH. split.
      * intros H [H1 | H1]; [congruence | tauto].
      * tauto.
Qed.

Lemma lookup_some_in name cols v :
  lookup_column name cols = Some v -> In (name, v) cols.
Proof.
  induction cols as [|[n old] rest IH]; simpl; [discriminate|].
  destruct (String.eqb name n) eqn:E.
  - apply String.eqb_eq in E. subst. intros [= ->]. now left.
  - auto.
Qed.

(** Assigning a column keeps the names in place; a new name goes last. *)
Lemma assign_column_names name v cols :
  map fst (assign_column name v cols) =
  map fst cols ++
    (if in_dec string_dec name (map fst cols) then [] else [name]).
Proof.
  induction cols as [|[n old] rest IH]; simpl; auto.
  destruct (String.eqb name n) eqn:E; simpl.
  - apply String.eqb_eq in E. subst n.
    destruct (string_dec name name) as [Hn|C]; [|contradiction].
    now rewrite app_nil_r.
  - apply String.eqb_neq in E. rewrite IH.
    destruct (string_dec n name) as [C|Hn]; [congruence|].
    destruct (in_dec string_dec name (map fst rest)); reflexivity.
Qed.

Lemma assign_absent name v cols :
  ~ In name (map fst cols) ->
  assign_column name v cols = cols ++ [(name, v)].
Proof.
  induction cols as [|[n old] rest IH]; simpl; auto.
  intros H. destruct (String.eqb name n) eqn:E.
  - apply String.eqb_eq in E. subst. tauto.
  - rewrite IH; tauto.
Qed.

Lemma assign_column_lengths k name v cols :
  List.length v = k ->
  Forall (fun c => List.length (snd c) = k) cols ->
  Forall (fun c => List.length (snd c) = k) (assign_column name v cols).
Proof.
  intros Hv. induction 1 as [|[n old] rest Hx Hrest IH]; simpl.
  - repeat constructor. exact Hv.
  - destruct (String.eqb name n); constructor; auto.
Qed.

Lemma well_formed_column_length df name v :
  well_formed df ->
  lookup_column name (columns df) = Some v ->
  List.length v = nrows df.
Proof.
  intros [Hlen _] H. apply lookup_some_in in H.
  rewrite Forall_forall in Hlen. exact (Hlen _ H).
Qed.

(** ** The annotator *)

(** With the model missing the table comes back as it was. *)
Lemma process_nlp_model_unavailable env df st e :
  spacy_load env model_name = Raise e ->
  isinstance_OSError e = true ->
  process_nlp env df st =
  (Ok df,
   after_print "Error: Model not found. Please run: python -m spacy download en_core_web_sm" st).
Proof.
  intros Hload Hos. unfold process_nlp. fold model_name.
  rewrite Hload, Hos. reflexivity.
Qed.

Lemma unpack_zip_star results :
  results <> [] ->
  unpack2 (zip_star results) =
  ret (map (fun r => CPairs (fst r)) results,
       map (fun r => CPairs (snd r)) results).
Proof.
  destruct results; [congruence | reflexivity].
Qed.

Lemma setitem_ok df name v st :
  List.length v = nrows df ->
  setitem df name v st =
  (Ok (mkDataFrame (nrows df) (assign_column name v (columns df))), st).
Proof.
  intros H. unfold setitem. rewrite H, Nat.eqb_refl. reflexivity.
Qed.

(** With the model, a title column and at least one row, the annotator
    returns the tagged table. *)
Lemma process_nlp_tagged env nlp df titles st :
  spacy_load env model_name = Ok nlp ->
  lookup_column "title" (columns df) = Some titles ->
  List.length titles = nrows df ->
  nrows df <> 0 ->
  process_nlp env df st =
  (Ok (tagged nlp df titles),
   after_print "Processing text (this may take a moment)..." st).
Proof.
  intros Hload Htitle Hlen Hrows. unfold process_nlp. fold model_name.
  rewrite Hload. unfold bind at 1. cbn [print].
  unfold bind at 1. unfold getitem. rewrite Htitle. cbn [ret].
  unfold bind at 1. rewrite unpack_zip_star.
  2:{ destruct titles; [simpl in Hlen; congruence | discriminate]. }
  cbn [ret fst snd]. unfold bind at 1.
  rewrite setitem_ok by (now rewrite !length_map).
  unfold bind at 1.
  rewrite setitem_ok by (now rewrite !length_map).
  rewrite !map_map. reflexivity.
Qed.

(** Without a title column the lookup raises. *)
Lemma process_nlp_no_title env nlp df st :
  spacy_load env model_name = Ok nlp ->
  lookup_column "title" (columns df) = None ->
  process_nlp env df st =
  (Raise (KeyError "title"),
   after_print "Processing text (this may take a moment)..." st).
Proof.
  intros Hload Htitle. unfold process_nlp. fold model_name.
  rewrite Hload. unfold bind, print, getitem. rewrite Htitle. reflexivity.
Qed.

(** Without a row there is nothing to unpack. *)
Lemma process_nlp_no_row env nlp df st :
  spacy_load env model_name = Ok nlp ->
  lookup_column "title" (columns df) = Some [] ->
  process_nlp env df st =
  (Raise (ValueError "not enough values to unpack (expected 2, got 0)"),
   after_print "Processing text (this may take a moment)..." st).
Proof.
  intros Hload Htitle. unfold process_nlp. fold model_name.
  rewrite Hload. unfold bind, print, getitem. rewrite Htitle. reflexivity.
Qed.

(** Whatever the annotator returns is the input or its tagged version. *)
Lemma process_nlp_returns env df st df' st' :
  process_nlp env df st = (Ok df', st') ->
  df' = df \/
  exists nlp titles,
    spacy_load env model_name = Ok nlp /\
    lookup_column "title" (columns df) = Some titles /\
    List.length titles = nrows df /\
    df' = tagged nlp df titles.
Proof.
  unfold process_nlp. fold model_name.
  destruct (spacy_load env model_name) as [nlp|e] eqn:Hload.
  - unfold bind at 1. cbn [print]. unfold bind at 1. unfold getitem.
    destruct (lookup_column "title" (columns df)) as [titles|] eqn:Htitle;
      [|discriminate].
    cbn [ret]. unfold bind at 1.
    destruct titles as [|t ts]; [discriminate|].
    rewrite unpack_zip_star by discriminate.
    cbn [ret fst snd]. unfold bind at 1. unfold setitem at 1.
    rewrite !length_map.
    destruct (Nat.eqb (List.length (t :: ts)) (nrows df)) eqn:E; [|discriminate].
    apply Nat.eqb_eq in E. cbn [ret]. unfold bind at 1.
    rewrite setitem_ok by (now rewrite !length_map).
    rewrite !map_map. intros [= <- <-].
    right. exists nlp, (t :: ts). auto.
  - destruct (isinstance_OSError e); [|discriminate].
    unfold bind, print, ret. intros [= <- <-]. now left.
Qed.

(** ** The loader *)

Lemma load_data_ok env filepath df st :
  read_csv env filepath = Ok df ->
  load_data env filepath st =
  (Ok (Some df),
   after_print ("Loaded " ++ filepath ++ " with " ++ str_of_nat (nrows df) ++ " rows.") st).
Proof.
  intros H. unfold load_data, try_except, bind, lift. rewrite H. reflexivity.
Qed.

Lemma load_data_not_found env filepath st :
  read_csv env filepath = Raise FileNotFoundError ->
  load_data env filepath st =
  (Ok None, after_print ("Error: File not found at " ++ filepath) st).
Proof.
  intros H. unfold load_data, try_except, bind, lift. rewrite H. reflexivity.
Qed.

Lemma load_data_uncaught env filepath e st :
  read_csv env filepath = Raise e ->
  isinstance_FileNotFoundError e = false ->
  load_data env filepath st = (Raise e, st).
Proof.
  intros H He. unfold load_data, try_except, bind, lift. rewrite H.
  cbn. now rewrite He.
Qed.

(** ** The aggregator *)

Lemma print_all_spec lines st :
  print_all lines st = (Ok tt, mkState (stdout st ++ lines) (written st)).
Proof.
  revert st. induction lines as [|l rest IH]; intros st; simpl.
  - rewrite app_nil_r. now destruct st.
  - unfold bind, print. rewrite IH. cbn [stdout written].
    now rewrite <- app_assoc.
Qed.

Lemma show_stats_no_column df st :
  lookup_column "entities" (columns df) = None ->
  show_stats df st = (Raise (KeyError "entities"), st).
Proof.
  intros H. unfold show_stats, bind, getitem. now rewrite H.
Qed.

Lemma show_stats_raises df column e st :
  lookup_column "entities" (columns df) = Some column ->
  flatten_entities column = Raise e ->
  show_stats df st = (Raise e, st).
Proof.
  intros H F. unfold show_stats, bind, getitem, lift. rewrite H.
  cbv beta iota delta [ret]. now rewrite F.
Qed.

Lemma show_stats_nothing df column st :
  lookup_column "entities" (columns df) = Some column ->
  flatten_entities column = Ok [] ->
  show_stats df st = (Ok tt, after_print (nl ++ " No entities found.") st).
Proof.
  intros H F. unfold show_stats, bind, getitem, lift. rewrite H.
  cbv beta iota delta [ret]. now rewrite F.
Qed.

Lemma show_stats_ranking df column all_ents st :
  lookup_column "entities" (columns df) = Some column ->
  flatten_entities column = Ok all_ents ->
  all_ents <> [] ->
  show_stats df st =
  (Ok tt,
   mkState (stdout st ++ (nl ++ " Top 5 Entities Found in Headlines:")%string
                      :: map entity_line (top_ents all_ents))
           (written st)).
Proof.
  intros H F Hne. unfold show_stats, bind, getitem, lift. rewrite H.
  cbv beta iota delta [ret]. rewrite F. destruct all_ents as [|e es]; [congruence|].
  cbn [print]. rewrite print_all_spec. cbn [stdout written].
  now rewrite <- app_assoc.
Qed.

(** A column of lists of pairs flattens to the first components in order. *)
Lemma flatten_entities_pairs (rows : list (list (string * string))) :
  flatten_entities (map CPairs rows) = Ok (map fst (List.concat rows)).
Proof.
  induction rows as [|r rest IH]; simpl; auto.
  rewrite IH. now rewrite map_app.
Qed.

(** ** Error paths of the pipeline *)

(** C2.  When reading the input raises FileNotFoundError, [load_data] prints
    one line that ends with the path and returns None, and [main] then
    returns without raising, having printed only that line and written no
    file. *)
Theorem missing_input_no_output env st :
  read_csv env INPUT_FILE = Raise FileNotFoundError ->
  load_data env INPUT_FILE st =
    (Ok None, after_print ("Error: File not found at " ++ INPUT_FILE) st) /\
  main env st =
    (Ok tt, after_print ("Error: File not found at " ++ INPUT_FILE) st) /\
  written (snd (main env st)) = written st.
Proof.
  intros H. pose proof (load_data_not_found env INPUT_FILE st H) as L.
  assert (Hm : main env st =
    (Ok tt, after_print ("Error: File not found at " ++ INPUT_FILE) st)).
  { unfold main. unfold bind at 1. now rewrite L. }
  split; [exact L|]. split; [exact Hm|]. now rewrite Hm.
Qed.

Lemma missing_input_no_output_witness :
  main Demo.env_no_file initial =
    (Ok tt, mkState ["Error: File not found at data/bbc_news.csv"] []).
Proof.
  exact (proj1 (proj2 (missing_input_no_output Demo.env_no_file initial eq_refl))).
Defined.

(** C1.  With the model missing and no entities column in the input, the
    annotator returns the table as it was, the aggregator then raises
    KeyError on the entities column, and [main] ends with that error before
    anything is written. *)
Theorem degraded_mode_raises env df e st :
  read_csv env INPUT_FILE = Ok df ->
  spacy_load env model_name = Raise e ->
  isinstance_OSError e = true ->
  lookup_column "entities" (columns df) = None ->
  fst (process_nlp env df st) = Ok df /\
  fst (show_stats df st) = Raise (KeyError "entities") /\
  fst (main env st) = Raise (KeyError "entities") /\
  written (snd (main env st)) = written st.
Proof.
  intros Hread Hload He Hcol.
  split; [now rewrite (process_nlp_model_unavailable _ _ _ Hload He)|].
  split; [now rewrite show_stats_no_column|].
  assert (Hm : exists st', main env st = (Raise (KeyError "entities"), st') /\
                           written st' = written st).
  { eexists. unfold main. unfold bind at 1. rewrite (load_data_ok _ _ _ Hread).
    unfold bind at 1. rewrite (process_nlp_model_unavailable _ _ _ Hload He).
    unfold bind at 1. rewrite show_stats_no_column by exact Hcol.
    split; reflexivity. }
  destruct Hm as (st' & -> & Hw). auto.
Qed.

Lemma degraded_mode_raises_witness :
  fst (main Demo.env_no_model initial) = Raise (KeyError "entities") /\
  written (snd (main Demo.env_no_model initial)) = [].
Proof.
  exact (proj2 (proj2 (degraded_mode_raises Demo.env_no_model (e:=OSError)
                         initial eq_refl eq_refl eq_refl eq_refl))).
Defined.

(** C6.  When the entities column flattens to the empty list, [show_stats]
    returns without raising and prints exactly the notice, no ranking. *)
Theorem no_entities_notice df column st :
  lookup_column "entities" (columns df) = Some column ->
  flatten_entities column = Ok [] ->
  show_stats df st = (Ok tt, after_print (nl ++ " No entities found.") st).
Proof.
  exact (@show_stats_nothing df column st).
Qed.

Lemma no_entities_notice_witness :
  show_stats (mkDataFrame 2 [("title", [CStr "rain"; CStr "wind"]);
                             ("entities", [CPairs []; CPairs []])]) initial =
  (Ok tt, mkState [(nl ++ " No entities found.")%string] []).
Proof.
  exact (no_entities_notice
           (mkDataFrame 2 [("title", [CStr "rain"; CStr "wind"]);
                           ("entities", [CPairs []; CPairs []])])
           initial eq_refl eq_refl).
Defined.

(** C9.  A well-formed table with a title column and no row, the model
    loaded: the annotator raises ValueError at the unpacking, and [main] ends
    with that error, nothing written. *)
Theorem header_only_raises env nlp df titles st :
  read_csv env INPUT_FILE = Ok df ->
  spacy_load env model_name = Ok nlp ->
  well_formed df ->
  nrows df = 0 ->
  lookup_column "title" (columns df) = Some titles ->
  fst (process_nlp env df st) =
    Raise (ValueError "not enough values to unpack (expected 2, got 0)") /\
  fst (main env st) =
    Raise (ValueError "not enough values to unpack (expected 2, got 0)") /\
  written (snd (main env st)) = written st.
Proof.
  intros Hread Hload Hwf Hrows Htitle.
  pose proof (well_formed_column_length _ Hwf Htitle) as Hlen.
  rewrite Hrows in Hlen. apply length_zero_iff_nil in Hlen. subst titles.
  split; [now rewrite (process_nlp_no_row _ _ _ Hload Htitle)|].
  assert (Hm : exists st',
             main env st =
             (Raise (ValueError "not enough values to unpack (expected 2, got 0)"), st') /\
             written st' = written st).
  { eexists. unfold main. unfold bind at 1. rewrite (load_data_ok _ _ _ Hread).
    unfold bind at 1. rewrite (process_nlp_no_row _ _ _ Hload Htitle).
    split; reflexivity. }
  destruct Hm as (st' & -> & Hw). auto.
Qed.

Lemma header_only_well_formed : well_formed Demo.header_only.
Proof.
  split.
  - repeat constructor.
  - repeat constructor; simpl; intuition discriminate.
Qed.

Lemma header_only_raises_witness :
  fst (main Demo.env_header_only initial) =
    Raise (ValueError "not enough values to unpack (expected 2, got 0)") /\
  written (snd (main Demo.env_header_only initial)) = [].
Proof.
  exact (proj2 (header_only_raises Demo.env_header_only initial
                  eq_refl eq_refl header_only_well_formed eq_refl eq_refl)).
Defined.

(** C10.  A loaded table without a title column, the model loaded: the
    annotator raises KeyError for title, nothing catches it, and [main]
    ends with that error, nothing written. *)
Theorem missing_title_raises env nlp df st :
  read_csv env INPUT_FILE = Ok df ->
  spacy_load env model_name = Ok nlp ->
  lookup_column "title" (columns df) = None ->
  fst (process_nlp env df st) = Raise (KeyError "title") /\
  fst (main env st) = Raise (KeyError "title") /\
  written (snd (main env st)) = written st.
Proof.
  intros Hread Hload Htitle.
  split; [now rewrite (process_nlp_no_title _ _ _ Hload Htitle)|].
  assert (Hm : exists st', main env st = (Raise (KeyError "title"), st') /\
                           written st' = written st).
  { eexists. unfold main. unfold bind at 1. rewrite (load_data_ok _ _ _ Hread).
    unfold bind at 1. rewrite (process_nlp_no_title _ _ _ Hload Htitle).
    split; reflexivity. }
  destruct Hm as (st' & -> & Hw). auto.
Qed.

Lemma missing_title_raises_witness :
  fst (main Demo.env_untitled initial) = Raise (KeyError "title") /\
  written (snd (main Demo.env_untitled initial)) = [].
Proof.
  exact (proj2 (missing_title_raises Demo.env_untitled initial
                  eq_refl eq_refl eq_refl)).
Defined.

(** ** The annotated table *)

Lemma carried_through_refl df : carried_through df df.
Proof.
  split; [reflexivity|]. split; [reflexivity|].
  exists []. split; [now rewrite app_nil_r | intros x []].
Qed.

Lemma carried_through_tagged nlp df titles :
  carried_through df (tagged nlp df titles).
Proof.
  split; [reflexivity|]. split.
  - intros c He Hp. unfold tagged. cbn [columns].
    now rewrite !lookup_assign_other.
  - unfold column_names, tagged. cbn [columns].
    rewrite !assign_column_names, <- app_assoc.
    eexists. split; [reflexivity|].
    intros x Hx. apply in_app_or in Hx. destruct Hx as [Hx|Hx].
    + destruct (in_dec string_dec "entities" (map fst (columns df)));
        simpl in Hx; [tauto|]. destruct Hx as [<-|[]]. now left.
    + match type of Hx with In _ (if ?d then _ else _) => destruct d end;
        simpl in Hx; [tauto|]. destruct Hx as [<-|[]]. right. now left.
Qed.

Lemma tagged_entities nlp df titles :
  lookup_column "entities" (columns (tagged nlp df titles)) =
  Some (map (entities_of nlp) titles).
Proof.
  unfold tagged. cbn [columns].
  rewrite lookup_assign_other by discriminate. apply lookup_assign_same.
Qed.

Lemma tagged_pos_tags nlp df titles :
  lookup_column "pos_tags" (columns (tagged nlp df titles)) =
  Some (map (pos_tags_of nlp) titles).
Proof.
  unfold tagged. cbn [columns]. apply lookup_assign_same.
Qed.

Lemma tagged_columns_absent nlp df titles :
  ~ In "entities" (column_names df) ->
  ~ In "pos_tags" (column_names df) ->
  columns (tagged nlp df titles) =
  columns df ++ [("entities", map (entities_of nlp) titles);
                 ("pos_tags", map (pos_tags_of nlp) titles)].
Proof.
  intros He Hp. unfold tagged. cbn [columns].
  rewrite (assign_absent _ _ _ He). rewrite assign_absent.
  - now rewrite <- app_assoc.
  - rewrite map_app. intros H. apply in_app_or in H.
    destruct H as [H|[H|[]]]; [tauto | discriminate].
Qed.

Lemma tagged_well_formed nlp df titles :
  well_formed df ->
  List.length titles = nrows df ->
  well_formed (tagged nlp df titles).
Proof.
  intros [Hlen Hnd] Ht. split.
  - unfold tagged. cbn [columns nrows].
    apply assign_column_lengths; [now rewrite length_map|].
    apply assign_column_lengths; [now rewrite length_map|]. exact Hlen.
  - unfold column_names, tagged in *. cbn [columns].
    rewrite !assign_column_names.
    match goal with |- NoDup (_ ++ (if ?d then _ else _)) => destruct d as [i|n] end.
    + rewrite app_nil_r.
      destruct (in_dec string_dec "entities" (map fst (columns df))) as [i'|n'].
      * now rewrite app_nil_r.
      * apply NoDup_app; [exact Hnd | repeat constructor; tauto|].
        intros x Hx [<-|[]]. contradiction.
    + apply NoDup_app; [|repeat constructor; tauto|].
      * destruct (in_dec string_dec "entities" (map fst (columns df))) as [i'|n'].
        -- now rewrite app_nil_r.
        -- apply NoDup_app; [exact Hnd | repeat constructor; tauto|].
           intros x Hx [<-|[]]. contradiction.
      * intros x Hx [<-|[]]. contradiction.
Qed.

(** The aggregator never raises on a tagged table. *)
Lemma show_stats_tagged nlp df titles st :
  exists lines,
    show_stats (tagged nlp df titles) st =
    (Ok tt, mkState (stdout st ++ lines) (written st)).
Proof.
  pose proof (tagged_entities nlp df titles) as Hcol.
  assert (Hflat : flatten_entities (map (entities_of nlp) titles) =
                  Ok (map fst (List.concat
                        (map (fun t => fst (extract_features nlp t)) titles)))).
  { rewrite <- flatten_entities_pairs. now rewrite map_map. }
  destruct (map fst (List.concat
              (map (fun t => fst (extract_features nlp t)) titles)))
    as [|e es] eqn:E.
  - eexists. rewrite (show_stats_nothing _ _ Hcol Hflat). reflexivity.
  - eexists. rewrite (show_stats_ranking _ _ Hcol Hflat) by discriminate.
    reflexivity.
Qed.

(** A full run on a table with a title column and at least one row. *)
Lemma main_writes_tagged env nlp df titles st :
  read_csv env INPUT_FILE = Ok df ->
  spacy_load env model_name = Ok nlp ->
  lookup_column "title" (columns df) = Some titles ->
  well_formed df ->
  nrows df <> 0 ->
  to_csv_error env OUTPUT_FILE = None ->
  fst (main env st) = Ok tt /\
  written (snd (main env st)) =
    written st ++ [(OUTPUT_FILE, tagged nlp df titles)].
Proof.
  intros Hread Hload Htitle Hwf Hrows Hcsv.
  pose proof (well_formed_column_length _ Hwf Htitle) as Hlen.
  assert (Hm : exists st', main env st = (Ok tt, st') /\
             written st' = written st ++ [(OUTPUT_FILE, tagged nlp df titles)]).
  { unfold main. unfold bind at 1. rewrite (load_data_ok _ _ _ Hread).
    unfold bind at 1.
    rewrite (process_nlp_tagged _ _ _ Hload Htitle Hlen Hrows).
    unfold bind at 1.
    match goal with |- context [show_stats ?d ?s] =>
      destruct (show_stats_tagged nlp df titles s) as [lines ->] end.
    unfold bind at 1. unfold to_csv. rewrite Hcsv.
    eexists. split; reflexivity. }
  destruct Hm as (st' & -> & Hw). auto.
Qed.

Lemma keeps_ret {A} (a : A) : keeps_files (ret a).
Proof. intros st. reflexivity. Qed.

Lemma keeps_raise {A} e : keeps_files (@raise A e).
Proof. intros st. reflexivity. Qed.

Lemma keeps_lift {A} (r : result A) : keeps_files (lift r).
Proof. intros st. reflexivity. Qed.

Lemma keeps_print line : keeps_files (print line).
Proof. intros st. reflexivity. Qed.

Lemma keeps_bind {A B} (m : M A) (k : A -> M B) :
  keeps_files m -> (forall a, keeps_files (k a)) -> keeps_files (bind m k).
Proof.
  intros Hm Hk st. unfold bind. specialize (Hm st).
  destruct (m st) as [[a|e] st1]; cbn [snd] in *.
  - now rewrite Hk.
  - exact Hm.
Qed.

Lemma keeps_try {A} (m : M A) catches h :
  keeps_files m -> keeps_files h -> keeps_files (try_except m catches h).
Proof.
  intros Hm Hh st. unfold try_except. specialize (Hm st).
  destruct (m st) as [[a|e] st1]; cbn [snd] in *; auto.
  destruct (catches e); cbn [snd]; [now rewrite Hh | exact Hm].
Qed.

Create HintDb keeps.
#[local] Hint Resolve keeps_ret keeps_raise keeps_lift keeps_print : keeps.

Lemma keeps_getitem df name : keeps_files (getitem df name).
Proof.
  unfold getitem. destruct (lookup_column name (columns df)); auto with keeps.
Qed.

Lemma keeps_setitem df name v : keeps_files (setitem df name v).
Proof.
  unfold setitem. destruct (Nat.eqb _ _); auto with keeps.
Qed.

Lemma keeps_unpack2 {A} (l : list A) : keeps_files (unpack2 l).
Proof.
  unfold unpack2. destruct l as [|a [|b [|c r]]]; auto with keeps.
Qed.

Lemma keeps_print_all lines : keeps_files (print_all lines).
Proof.
  intros st. now rewrite print_all_spec.
Qed.

#[local] Hint Resolve keeps_getitem keeps_setitem keeps_unpack2
  keeps_print_all : keeps.

Lemma keeps_load_data env filepath : keeps_files (load_data env filepath).
Proof.
  unfold load_data. apply keeps_try; repeat (apply keeps_bind; intros);
    auto with keeps.
Qed.

Lemma keeps_process_nlp env df : keeps_files (process_nlp env df).
Proof.
  intros st. unfold process_nlp.
  destruct (spacy_load env "en_core_web_sm") as [nlp|e].
  - revert st. change (keeps_files
      (print "Processing text (this may take a moment)..." ;;;
       titles <- getitem df "title" ;;
       cols <- unpack2 (zip_star (map (extract_features nlp) titles)) ;;
       df1 <- setitem df "entities" (fst cols) ;;
       df2 <- setitem df1 "pos_tags" (snd cols) ;;
       ret df2)).
    repeat (apply keeps_bind; intros); auto with keeps.
  - destruct (isinstance_OSError e); [|reflexivity].
    revert st. change (keeps_files
      (print "Error: Model not found. Please run: python -m spacy download en_core_web_sm" ;;;
       ret df)).
    repeat (apply keeps_bind; intros); auto with keeps.
Qed.

Lemma keeps_show_stats df : keeps_files (show_stats df).
Proof.
  unfold show_stats. repeat (apply keeps_bind; intros); auto with keeps.
  destruct a0; repeat (apply keeps_bind; intros); auto with keeps.
Qed.

(** Whatever [main] writes is the loaded table, carried through. *)
Lemma main_written_carried env df st :
  read_csv env INPUT_FILE = Ok df ->
  exists w,
    written (snd (main env st)) = written st ++ w /\
    forall path out, In (path, out) w ->
                     path = OUTPUT_FILE /\ carried_through df out.
Proof.
  intros Hread. unfold main. unfold bind at 1.
  rewrite (load_data_ok _ _ _ Hread). unfold bind at 1.
  match goal with |- context [process_nlp env df ?s] =>
    pose proof (keeps_process_nlp env df s) as Hst1;
    destruct (process_nlp env df s) as [[df'|e] st1] eqn:Hp end;
    cbn [snd after_print written] in Hst1.
  2:{ exists []. cbn [snd]. rewrite Hst1.
      split; [now rewrite app_nil_r | intros ? ? []]. }
  assert (Hc : carried_through df df').
  { destruct (process_nlp_returns _ _ _ Hp) as [->|(nlp & titles & _ & _ & _ & ->)].
    - apply carried_through_refl.
    - apply carried_through_tagged. }
  unfold bind at 1. pose proof (keeps_show_stats df' st1) as Hst2.
  destruct (show_stats df' st1) as [[[]|e] st2] eqn:Hs; cbn [snd] in Hst2.
  2:{ exists []. cbn [snd]. rewrite Hst2, Hst1.
      split; [now rewrite app_nil_r | intros ? ? []]. }
  unfold bind at 1. unfold to_csv.
  destruct (to_csv_error env OUTPUT_FILE).
  - exists []. cbn [snd]. rewrite Hst2, Hst1.
    split; [now rewrite app_nil_r | intros ? ? []].
  - exists [(OUTPUT_FILE, df')]. cbn. rewrite Hst2, Hst1.
    split; [reflexivity|]. intros path out [[= <- <-]|[]]. auto.
Qed.

(** C4.  For every loaded table: whenever the annotator returns a table, it
    has the input's row count, every column other than entities and pos_tags
    with its cells in the input's order, and the input's column names in
    order with at most entities and pos_tags added; whatever [main] writes is
    such a table at the output path; and for a well-formed table with a title
    column and at least one row, with the model loaded and the output
    writable, [main] writes the tagged table, whose columns are the input's
    followed by entities and pos_tags when the input had neither. *)
Theorem table_carried_through env df st :
  read_csv env INPUT_FILE = Ok df ->
  (forall st1 df' st1',
      process_nlp env df st1 = (Ok df', st1') -> carried_through df df') /\
  (exists w,
      written (snd (main env st)) = written st ++ w /\
      forall path out, In (path, out) w ->
                       path = OUTPUT_FILE /\ carried_through df out) /\
  (forall nlp titles,
      spacy_load env model_name = Ok nlp ->
      lookup_column "title" (columns df) = Some titles ->
      well_formed df ->
      nrows df <> 0 ->
      to_csv_error env OUTPUT_FILE = None ->
      written (snd (main env st)) =
        written st ++ [(OUTPUT_FILE, tagged nlp df titles)] /\
      (~ In "entities" (column_names df) ->
       ~ In "pos_tags" (column_names df) ->
       columns (tagged nlp df titles) =
       columns df ++ [("entities", map (entities_of nlp) titles);
                      ("pos_tags", map (pos_tags_of nlp) titles)])).
Proof.
  intros Hread. split; [|split].
  - intros st1 df' st1' Hp.
    destruct (process_nlp_returns _ _ _ Hp) as [->|(nlp & titles & _ & _ & _ & ->)].
    + apply carried_through_refl.
    + apply carried_through_tagged.
  - now apply main_written_carried.
  - intros nlp titles Hload Htitle Hwf Hrows Hcsv. split.
    + now apply main_writes_tagged.
    + apply tagged_columns_absent.
Qed.

Lemma headlines_well_formed : well_formed Demo.headlines.
Proof.
  split.
  - repeat constructor.
  - repeat constructor; simpl; intuition discriminate.
Qed.

Lemma table_carried_through_witness :
  written (snd (main Demo.env initial)) =
  [(OUTPUT_FILE,
    mkDataFrame 3
      [("title", [CStr "London calling"; CStr "rain in Paris"; CInt 2024]);
       ("pubDate", [CStr "Mon"; CStr "Tue"; CStr "Wed"]);
       ("entities", [CPairs [("London", "GPE")]; CPairs [("Paris", "GPE")];
                     CPairs []]);
       ("pos_tags", [CPairs [("London", "X"); ("calling", "X")];
                     CPairs [("rain", "X"); ("in", "X"); ("Paris", "X")];
                     CPairs [("2024", "X")]])])].
Proof.
  exact (proj1 (proj2 (proj2 (table_carried_through Demo.env initial eq_refl))
                 Demo.nlp _ eq_refl eq_refl headlines_well_formed
                 (fun H => O_S _ (eq_sym H)) eq_refl)).
Defined.

(** ** Per-row annotation *)

Lemma nth_error_map_some {A B} (f : A -> B) l i a :
  nth_error l i = Some a -> nth_error (map f l) i = Some (f a).
Proof.
  revert i. induction l as [|x l IH]; intros [|i]; simpl; try discriminate.
  - now intros [= ->].
  - apply IH.
Qed.

(** C7.  On a well-formed table with a title column and at least one row,
    the model loaded, the annotator returns a table in which row i of the
    entities and pos_tags columns is what the model gives for the text of
    row i's title, and for nothing else: the title is rendered with str,
    which leaves a text as it is and writes an integer in decimal, and the
    two cells of a row are a function of that row's title alone. *)
Theorem rows_annotated_independently env nlp df titles st :
  spacy_load env model_name = Ok nlp ->
  lookup_column "title" (columns df) = Some titles ->
  well_formed df ->
  nrows df <> 0 ->
  exists df' st' ents tags,
    process_nlp env df st = (Ok df', st') /\
    lookup_column "entities" (columns df') = Some ents /\
    lookup_column "pos_tags" (columns df') = Some tags /\
    List.length ents = nrows df /\
    List.length tags = nrows df /\
    (forall i title,
        nth_error titles i = Some title ->
        nth_error ents i =
          Some (CPairs (map (fun ent => (span_text ent, label_ ent))
                            (doc_ents (nlp (py_str title))))) /\
        nth_error tags i =
          Some (CPairs (map (fun token => (token_text token, pos_ token))
                            (doc_tokens (nlp (py_str title)))))) /\
    (forall s, py_str (CStr s) = s) /\
    py_str (CInt 2024) = "2024".
Proof.
  intros Hload Htitle Hwf Hrows.
  pose proof (well_formed_column_length _ Hwf Htitle) as Hlen.
  exists (tagged nlp df titles),
         (after_print "Processing text (this may take a moment)..." st),
         (map (entities_of nlp) titles), (map (pos_tags_of nlp) titles).
  split; [now apply process_nlp_tagged|].
  split; [apply tagged_entities|]. split; [apply tagged_pos_tags|].
  rewrite !length_map. repeat split; auto.
  - now apply (nth_error_map_some (entities_of nlp)).
  - now apply (nth_error_map_some (pos_tags_of nlp)).
Qed.

Lemma rows_annotated_independently_witness :
  exists df' st' ents tags,
    process_nlp Demo.env Demo.headlines initial = (Ok df', st') /\
    lookup_column "entities" (columns df') = Some ents /\
    lookup_column "pos_tags" (columns df') = Some tags /\
    nth_error ents 2 = Some (CPairs []) /\
    nth_error tags 2 = Some (CPairs [("2024", "X")]).
Proof.
  destruct (@rows_annotated_independently Demo.env Demo.nlp
              Demo.headlines _ initial eq_refl eq_refl headlines_well_formed
              (fun H => O_S _ (eq_sym H)))
    as (df' & st' & ents & tags & Hp & He & Ht & _ & _ & Hrow & _).
  exists df', st', ents, tags.
  destruct (Hrow 2 (CInt 2024) eq_refl) as [H1 H2].
  repeat split; assumption.
Defined.

(** C8.  On the same tables, row i of pos_tags is one (text, tag) pair per
    token the model gives for the text of row i's title, in order, whatever
    the token is, so it is as long as the token list; and when the model's
    tokenizer gives at least one token for every non-empty text, the cell of
    a non-empty title is not empty. *)
Theorem pos_tags_cover_tokens env nlp df titles st :
  spacy_load env model_name = Ok nlp ->
  lookup_column "title" (columns df) = Some titles ->
  well_formed df ->
  nrows df <> 0 ->
  exists df' st' tags,
    process_nlp env df st = (Ok df', st') /\
    lookup_column "pos_tags" (columns df') = Some tags /\
    forall i title,
      nth_error titles i = Some title ->
      exists pairs,
        nth_error tags i = Some (CPairs pairs) /\
        pairs = map (fun token => (token_text token, pos_ token))
                    (doc_tokens (nlp (py_str title))) /\
        List.length pairs = List.length (doc_tokens (nlp (py_str title))) /\
        ((forall text, text <> EmptyString -> doc_tokens (nlp text) <> []) ->
         py_str title <> EmptyString ->
         pairs <> []).
Proof.
  intros Hload Htitle Hwf Hrows.
  pose proof (well_formed_column_length _ Hwf Htitle) as Hlen.
  exists (tagged nlp df titles),
         (after_print "Processing text (this may take a moment)..." st),
         (map (pos_tags_of nlp) titles).
  split; [now apply process_nlp_tagged|].
  split; [apply tagged_pos_tags|].
  intros i title Hi. eexists. split.
  - apply (nth_error_map_some (pos_tags_of nlp)). exact Hi.
  - cbn [extract_features snd]. split; [reflexivity|].
    split; [apply length_map|].
    intros Htok Hne Hnil. apply map_eq_nil in Hnil.
    exact (Htok _ Hne Hnil).
Qed.

Lemma demo_tokenizer text :
  text <> EmptyString -> doc_tokens (Demo.nlp text) <> [].
Proof.
  intros Hne. unfold Demo.nlp. cbn [doc_tokens].
  destruct (Demo.words_from EmptyString text) as [|w ws].
  - destruct text; [congruence | discriminate].
  - discriminate.
Qed.

Lemma pos_tags_cover_tokens_witness :
  exists df' st' tags,
    process_nlp Demo.env Demo.headlines initial = (Ok df', st') /\
    lookup_column "pos_tags" (columns df') = Some tags /\
    exists pairs,
      nth_error tags 1 = Some (CPairs pairs) /\
      List.length pairs = 3 /\ pairs <> [].
Proof.
  destruct (@pos_tags_cover_tokens Demo.env Demo.nlp
              Demo.headlines _ initial eq_refl eq_refl headlines_well_formed
              (fun H => O_S _ (eq_sym H)))
    as (df' & st' & tags & Hp & Ht & Hrow).
  exists df', st', tags. split; [exact Hp|]. split; [exact Ht|].
  destruct (Hrow 1 (CStr "rain in Paris") eq_refl)
    as (pairs & Hn & _ & Hl & Hne).
  exists pairs. split; [exact Hn|]. split; [exact Hl|].
  apply (Hne demo_tokenizer). discriminate.
Defined.

(** ** Counting *)

Section Before.
Context {A : Type}.
Implicit Types (a b x : A) (l : list A).

Lemma before_in a b l : before a b l -> In a l /\ In b l.
Proof.
  induction l as [|x l IH]; simpl; [tauto|].
  intros [[-> H]|H]; [tauto|]. apply IH in H. tauto.
Qed.

Lemma before_split a b l :
  before a b l <-> exists l1 l2 l3, l = l1 ++ a :: l2 ++ b :: l3.
Proof.
  split.
  - induction l as [|x l IH]; simpl; [tauto|].
    intros [[-> H]|H].
    + apply in_split in H. destruct H as (l2 & l3 & ->).
      now exists [], l2, l3.
    + destruct (IH H) as (l1 & l2 & l3 & ->). now exists (x :: l1), l2, l3.
  - intros (l1 & l2 & l3 & ->). induction l1 as [|y l1 IH]; simpl.
    + left. split; [reflexivity|]. apply in_or_app. right. now left.
    + now right.
Qed.

Lemma before_snoc a b x l :
  before a b (l ++ [x]) <-> before a b l \/ (In a l /\ b = x).
Proof.
  induction l as [|y l IH]; simpl.
  - tauto.
  - rewrite IH, in_app_iff. simpl. intuition (subst; auto).
Qed.

Lemma before_firstn a b n l : before a b (firstn n l) -> before a b l.
Proof.
  revert n. induction l as [|x l IH]; intros [|n]; simpl; try tauto.
  intros [[-> H]|H].
  - left. split; [reflexivity|]. rewrite <- (firstn_skipn n l).
    apply in_or_app. now left.
  - right. eauto.
Qed.

Lemma before_map {B} (f : A -> B) a b l :
  before a b l -> before (f a) (f b) (map f l).
Proof.
  induction l as [|x l IH]; simpl; [tauto|].
  intros [[-> H]|H]; [left | right; auto].
  split; [reflexivity|]. now apply in_map.
Qed.

(** In a list without repetition, two entries are never each before the
    other, and two different entries are one before the other. *)
Lemma before_asym a b l : NoDup l -> before a b l -> ~ before b a l.
Proof.
  induction 1 as [|x l Hx Hnd IH]; simpl; [tauto|].
  intros [[-> H]|H] [[E H']|H'].
  - subst. contradiction.
  - apply before_in in H'. tauto.
  - subst. apply before_in in H. tauto.
  - exact (IH H H').
Qed.

Lemma before_total a b l :
  In a l -> In b l -> a <> b -> before a b l \/ before b a l.
Proof.
  induction l as [|x l IH]; simpl; [tauto|].
  intros [->|Ha] [->|Hb] Hne; try congruence; auto.
  destruct (IH Ha Hb Hne); auto.
Qed.
End Before.

Lemma first_index_none x l : first_index x l = None <-> ~ In x l.
Proof.
  induction l as [|y l IH]; simpl; [tauto|].
  destruct (String.eqb x y) eqn:E.
  - apply String.eqb_eq in E. subst. split; [discriminate | tauto].
  - apply String.eqb_neq in E.
    destruct (first_index x l); simpl; split; try discriminate.
    + intros H. exfalso. apply H. right.
      destruct (in_dec string_dec x l) as [Hi|Hn]; [exact Hi|].
      apply IH in Hn. discriminate.
    + intros _ [H|H]; [congruence|]. apply IH in H; auto.
    + reflexivity.
Qed.

Lemma first_index_some x l :
  In x l -> exists i, first_index x l = Some i /\ i < List.length l.
Proof.
  induction l as [|y l IH]; simpl; [tauto|].
  intros H. destruct (String.eqb x y) eqn:E.
  - exists 0. split; [reflexivity | lia].
  - apply String.eqb_neq in E. destruct H as [H|H]; [congruence|].
    destruct (IH H) as (i & -> & Hi). exists (S i). split; [reflexivity | lia].
Qed.

Lemma first_index_app x p q :
  first_index x (p ++ q) =
  match first_index x p with
  | Some i => Some i
  | None => option_map (Nat.add (List.length p)) (first_index x q)
  end.
Proof.
  induction p as [|y p IH]; simpl.
  - now destruct (first_index x q).
  - destruct (String.eqb x y); [reflexivity|]. rewrite IH.
    destruct (first_index x p); simpl; [reflexivity|].
    now destruct (first_index x q).
Qed.

Lemma counter_get_count_element key elem mapping :
  counter_get key (count_element elem mapping) =
  if String.eqb key elem then S (counter_get key mapping)
  else counter_get key mapping.
Proof.
  induction mapping as [|[k c] rest IH]; simpl.
  - destruct (String.eqb key elem); reflexivity.
  - destruct (String.eqb elem k) eqn:E; simpl.
    + apply String.eqb_eq in E. subst k.
      destruct (String.eqb key elem); reflexivity.
    + destruct (String.eqb key k) eqn:E'; [|exact IH].
      apply String.eqb_eq in E'. subst k.
      rewrite String.eqb_sym in E. now rewrite E.
Qed.

Lemma counter_get_in key c mapping :
  NoDup (map fst mapping) -> In (key, c) mapping -> counter_get key mapping = c.
Proof.
  induction mapping as [|[k c'] rest IH]; simpl; [tauto|].
  intros Hnd [H|H].
  - injection H as -> ->. now rewrite String.eqb_refl.
  - inversion Hnd as [|? ? Hk Hnd']; subst.
    destruct (String.eqb key k) eqn:E; [|auto].
    apply String.eqb_eq in E. subst k. exfalso. apply Hk.
    change key with (fst (key, c)). now apply in_map.
Qed.

Lemma count_element_known elem mapping :
  In elem (map fst mapping) ->
  map fst (count_element elem mapping) = map fst mapping.
Proof.
  induction mapping as [|[k c] rest IH]; simpl; [tauto|].
  destruct (String.eqb elem k) eqn:E; simpl; [reflexivity|].
  apply String.eqb_neq in E. intros [H|H]; [congruence|]. now rewrite IH.
Qed.

Lemma count_element_new elem mapping :
  ~ In elem (map fst mapping) ->
  count_element elem mapping = mapping ++ [(elem, 1)].
Proof.
  induction mapping as [|[k c] rest IH]; simpl; [reflexivity|].
  intros H. destruct (String.eqb elem k) eqn:E.
  - apply String.eqb_eq in E. subst. tauto.
  - rewrite IH; tauto.
Qed.

Lemma Counter_snoc p x :
  Counter (p ++ [x]) = count_element x (Counter p).
Proof.
  unfold Counter. now rewrite fold_left_app.
Qed.

(** The count kept for a key is the number of its occurrences. *)
Lemma counter_get_Counter key l :
  counter_get key (Counter l) = count_occ string_dec l key.
Proof.
  induction l as [|x p IH] using rev_ind; [reflexivity|].
  rewrite Counter_snoc, counter_get_count_element, IH, count_occ_app.
  simpl. destruct (string_dec x key) as [->|Hne].
  - rewrite String.eqb_refl. lia.
  - destruct (String.eqb key x) eqn:E; [|lia].
    apply String.eqb_eq in E. congruence.
Qed.

(** The keys are the elements met, each once, in the order first met. *)
Lemma Counter_keys l :
  NoDup (map fst (Counter l)) /\
  (forall k, In k (map fst (Counter l)) <-> In k l) /\
  (forall a b, before a b (map fst (Counter l)) ->
     exists i j, first_index a l = Some i /\ first_index b l = Some j /\ i < j).
Proof.
  induction l as [|x p (Hnd & Hin & Hord)] using rev_ind.
  - simpl. split; [constructor|]. split; [tauto|]. intros a b [].
  - rewrite Counter_snoc.
    destruct (in_dec string_dec x (map fst (Counter p))) as [Hx|Hx].
    + rewrite (count_element_known _ _ Hx). split; [exact Hnd|]. split.
      * intros k. rewrite Hin, in_app_iff. simpl.
        split; [tauto|]. intros [H|[<-|[]]]; [exact H | now apply Hin].
      * intros a b H. destruct (Hord a b H) as (i & j & Ha & Hb & Hij).
        exists i, j. rewrite !first_index_app, Ha, Hb. auto.
    + rewrite (count_element_new _ _ Hx), map_app. simpl. split; [|split].
      * apply NoDup_app; [exact Hnd | repeat constructor; tauto|].
        intros k Hk [<-|[]]. contradiction.
      * intros k. rewrite !in_app_iff, Hin. reflexivity.
      * intros a b H. apply before_snoc in H. destruct H as [H|[Ha ->]].
        -- destruct (Hord a b H) as (i & j & Ha & Hb & Hij).
           exists i, j. rewrite !first_index_app, Ha, Hb. auto.
        -- apply Hin in Ha. destruct (first_index_some _ _ Ha) as (i & Hi & Hlt).
           assert (Hnone : first_index x p = None).
           { apply first_index_none. intros C. apply Hx. now apply Hin. }
           exists i, (List.length p + 0).
           rewrite !first_index_app, Hi, Hnone. simpl.
           rewrite String.eqb_refl. simpl. split; [reflexivity|].
           split; [reflexivity | lia].
Qed.

Lemma Counter_in key c l :
  In (key, c) (Counter l) <-> In key l /\ c = count_occ string_dec l key.
Proof.
  destruct (Counter_keys l) as (Hnd & Hin & _). split.
  - intros H. split.
    + apply Hin. change key with (fst (key, c)). now apply in_map.
    + rewrite <- counter_get_Counter. symmetry. now apply counter_get_in.
  - intros [H ->]. apply Hin in H. apply in_map_iff in H.
    destruct H as ([k c'] & Hk & H). simpl in Hk. subst k.
    rewrite <- counter_get_Counter.
    now rewrite (counter_get_in _ _ _ Hnd H).
Qed.

(** ** Ranking *)

Lemma insert_desc_perm x l : Permutation (x :: l) (insert_desc x l).
Proof.
  induction l as [|y l IH]; simpl; [reflexivity|].
  destruct (Nat.ltb (snd x) (snd y)); [|reflexivity].
  rewrite perm_swap. now constructor.
Qed.

Lemma sorted_desc_perm l : Permutation l (sorted_desc l).
Proof.
  induction l as [|x l IH]; simpl; [constructor|].
  rewrite <- insert_desc_perm. now constructor.
Qed.

Lemma insert_desc_sorted x l :
  StronglySorted count_ge l -> StronglySorted count_ge (insert_desc x l).
Proof.
  induction 1 as [|y l Hl IH Hy]; simpl.
  - repeat constructor.
  - destruct (Nat.ltb (snd x) (snd y)) eqn:E.
    + apply Nat.ltb_lt in E. constructor; [exact IH|].
      rewrite <- insert_desc_perm. constructor; [|exact Hy].
      unfold count_ge. lia.
    + apply Nat.ltb_ge in E. constructor; [now constructor|].
      constructor; [exact E|].
      rewrite Forall_forall in *. intros z Hz. specialize (Hy z Hz).
      unfold count_ge in *. lia.
Qed.

Lemma sorted_desc_sorted l : StronglySorted count_ge (sorted_desc l).
Proof.
  induction l as [|x l IH]; simpl; [constructor|].
  now apply insert_desc_sorted.
Qed.

(** Inserting keeps the order of the entries already there. *)
Lemma insert_desc_keeps x u v l :
  before u v l -> before u v (insert_desc x l).
Proof.
  induction l as [|y l IH]; simpl; [tauto|].
  destruct (Nat.ltb (snd x) (snd y)); simpl.
  - intros [[-> H]|H]; [left | right; auto].
    split; [reflexivity|]. apply (Permutation_in _ (insert_desc_perm x l)).
    now right.
  - intros H. right. exact H.
Qed.

(** The inserted entry goes before every entry counted no more than it. *)
Lemma insert_desc_first x v l :
  In v l -> snd v <= snd x -> before x v (insert_desc x l).
Proof.
  induction l as [|y l IH]; simpl; [tauto|].
  intros Hv Hle. destruct (Nat.ltb (snd x) (snd y)) eqn:E; simpl.
  - apply Nat.ltb_lt in E. right. destruct Hv as [->|Hv]; [lia | auto].
  - left. auto.
Qed.

(** The sort is stable: an entry counted no less than a later one stays
    before it. *)
Lemma sorted_desc_stable u v l :
  before u v l -> snd v <= snd u -> before u v (sorted_desc l).
Proof.
  induction l as [|x l IH]; simpl; [tauto|].
  intros [[-> H]|H] Hle.
  - apply insert_desc_first; [|exact Hle].
    now apply (Permutation_in _ (sorted_desc_perm l)).
  - apply insert_desc_keeps. auto.
Qed.

Lemma sorted_firstn_skipn (R : string * nat -> string * nat -> Prop) n l x y :
  StronglySorted R l -> In x (firstn n l) -> In y (skipn n l) -> R x y.
Proof.
  intros Hs. revert n. induction Hs as [|z l Hl IH Hz]; intros [|n]; simpl;
    try tauto.
  intros [<-|Hx] Hy.
  - rewrite Forall_forall in Hz. apply Hz.
    rewrite <- (firstn_skipn n l). apply in_or_app. now right.
  - eauto.
Qed.

Lemma top_ents_sorted all_ents : StronglySorted count_ge (top_ents all_ents).
Proof.
  unfold top_ents, most_common.
  pose proof (sorted_desc_sorted (Counter all_ents)) as H.
  rewrite <- (firstn_skipn 5 (sorted_desc (Counter all_ents))) in H.
  revert H. generalize (firstn 5 (sorted_desc (Counter all_ents))).
  intros l. generalize (skipn 5 (sorted_desc (Counter all_ents))). intros r.
  induction l as [|x l IH]; simpl; [constructor|].
  intros H. inversion H as [|? ? Hl Hx]; subst. constructor; [auto|].
  rewrite Forall_forall in *. intros z Hz. apply Hx. apply in_or_app. now left.
Qed.

Lemma top_ents_incl all_ents p :
  In p (top_ents all_ents) -> In p (Counter all_ents).
Proof.
  unfold top_ents, most_common. intros H.
  apply (Permutation_in _ (Permutation_sym (sorted_desc_perm _))).
  rewrite <- (firstn_skipn 5 (sorted_desc (Counter all_ents))).
  apply in_or_app. now left.
Qed.

Lemma top_ents_nodup all_ents : NoDup (map fst (top_ents all_ents)).
Proof.
  unfold top_ents, most_common.
  assert (H : NoDup (map fst (sorted_desc (Counter all_ents)))).
  { apply (Permutation_NoDup (Permutation_map fst (sorted_desc_perm _))).
    apply Counter_keys. }
  rewrite <- (firstn_skipn 5 (sorted_desc (Counter all_ents))), map_app in H.
  now apply NoDup_app_remove_r in H.
Qed.

Lemma Counter_length all_ents :
  List.length (Counter all_ents) = List.length (nodup string_dec all_ents).
Proof.
  rewrite <- (length_map fst). apply Permutation_length.
  destruct (Counter_keys all_ents) as (Hnd & Hin & _).
  apply NoDup_Permutation; [exact Hnd | apply NoDup_nodup|].
  intros k. rewrite Hin. symmetry. apply nodup_In.
Qed.

Lemma top_ents_length all_ents :
  List.length (top_ents all_ents) =
  Nat.min 5 (List.length (nodup string_dec all_ents)).
Proof.
  unfold top_ents, most_common. rewrite length_firstn.
  now rewrite <- (Permutation_length (sorted_desc_perm _)), Counter_length.
Qed.

(** An element left out of the ranking is counted no more than any entry. *)
Lemma top_ents_highest all_ents e p :
  In e all_ents ->
  ~ In e (map fst (top_ents all_ents)) ->
  In p (top_ents all_ents) ->
  count_occ string_dec all_ents e <= snd p.
Proof.
  intros He Hout Hp.
  assert (Hin : In (e, count_occ string_dec all_ents e)
                   (sorted_desc (Counter all_ents))).
  { apply (Permutation_in _ (sorted_desc_perm _)). now apply Counter_in. }
  rewrite <- (firstn_skipn 5 (sorted_desc (Counter all_ents))) in Hin.
  apply in_app_or in Hin. destruct Hin as [Hin|Hin].
  - exfalso. apply Hout.
    change e with (fst (e, count_occ string_dec all_ents e)). now apply in_map.
  - exact (@sorted_firstn_skipn count_ge 5 _ _ _ (sorted_desc_sorted _) Hp Hin).
Qed.

Lemma in_firstn_skipn_before {A} (x y : A) n l :
  In x (firstn n l) -> In y (skipn n l) -> before x y l.
Proof.
  intros Hx Hy. rewrite <- (firstn_skipn n l).
  apply in_split in Hx. destruct Hx as (l1 & l2 & ->).
  apply in_split in Hy. destruct Hy as (r1 & r2 & ->).
  apply before_split. exists l1, (l2 ++ r1), r2.
  now rewrite <- !app_assoc.
Qed.

(** In the sorted items, of two entries with the same count the one listed
    first was first met earlier. *)
Lemma sorted_ties_first_met all_ents a b n :
  before (a, n) (b, n) (sorted_desc (Counter all_ents)) ->
  exists i j, first_index a all_ents = Some i /\
              first_index b all_ents = Some j /\ i < j.
Proof.
  intros H. destruct (Counter_keys all_ents) as (Hnd & _ & Hord).
  apply Hord.
  assert (Hnds : NoDup (sorted_desc (Counter all_ents))).
  { apply (Permutation_NoDup (sorted_desc_perm _)).
    now apply NoDup_map_inv with (f := fst). }
  destruct (@before_in _ _ _ _ H) as [Ha Hb].
  apply (Permutation_in _ (Permutation_sym (sorted_desc_perm _))) in Ha, Hb.
  assert (Hne : (a, n) <> (b, n)).
  { intros E. rewrite E in H. exact (@before_asym _ _ _ _ Hnds H H). }
  destruct (@before_total _ _ _ _ Ha Hb Hne) as [Hab|Hba].
  - exact (@before_map _ _ fst _ _ _ Hab).
  - exfalso. apply (@before_asym _ _ _ _ Hnds H).
    apply sorted_desc_stable; [exact Hba | reflexivity].
Qed.

(** C5.  Of two entities with the same count, the one first met earlier in
    the flattened list is ranked first: if the later one is in the top five
    then so is the earlier one, and it comes before it. *)
Theorem ties_follow_first_encounter all_ents a b n i j :
  In (b, n) (top_ents all_ents) ->
  count_occ string_dec all_ents a = n ->
  first_index a all_ents = Some i ->
  first_index b all_ents = Some j ->
  i < j ->
  In (a, n) (top_ents all_ents) /\
  exists l1 l2 l3, top_ents all_ents = l1 ++ (a, n) :: l2 ++ (b, n) :: l3.
Proof.
  intros Hb Hcount Hi Hj Hij.
  assert (Hain : In a all_ents).
  { destruct (in_dec string_dec a all_ents) as [H|H]; [exact H|].
    apply first_index_none in H. congruence. }
  assert (Hne : (a, n) <> (b, n)).
  { intros [= E]. subst b. rewrite Hi in Hj. injection Hj as ->. lia. }
  assert (Hno : forall l, l = sorted_desc (Counter all_ents) ->
                          ~ before (b, n) (a, n) l).
  { intros l -> H. apply sorted_ties_first_met in H.
    destruct H as (j' & i' & Hj' & Hi' & Hlt).
    rewrite Hi in Hi'. rewrite Hj in Hj'.
    injection Hi' as <-. injection Hj' as <-. lia. }
  assert (Ha : In (a, n) (top_ents all_ents)).
  { assert (Hs : In (a, n) (sorted_desc (Counter all_ents))).
    { apply (Permutation_in _ (sorted_desc_perm _)). apply Counter_in. auto. }
    rewrite <- (firstn_skipn 5 (sorted_desc (Counter all_ents))) in Hs.
    apply in_app_or in Hs. destruct Hs as [Hs|Hs]; [exact Hs|].
    exfalso. apply (Hno _ eq_refl).
    exact (@in_firstn_skipn_before _ _ _ 5 _ Hb Hs). }
  split; [exact Ha|]. apply before_split.
  destruct (@before_total _ _ _ _ Ha Hb Hne) as [H|H]; [exact H|].
  exfalso. apply (Hno _ eq_refl). unfold top_ents, most_common in H.
  now apply before_firstn in H.
Qed.

Lemma ties_follow_first_encounter_witness :
  In ("a", 2) (top_ents ["b"; "a"; "a"; "b"; "c"; "d"; "e"; "f"; "f"]) /\
  exists l1 l2 l3,
    top_ents ["b"; "a"; "a"; "b"; "c"; "d"; "e"; "f"; "f"] =
    l1 ++ ("a", 2) :: l2 ++ ("f", 2) :: l3.
Proof.
  apply (@ties_follow_first_encounter
           ["b"; "a"; "a"; "b"; "c"; "d"; "e"; "f"; "f"] "a" "f" 2 1 7).
  - vm_compute. tauto.
  - reflexivity.
  - reflexivity.
  - reflexivity.
  - lia.
Defined.

(** Three entities counted 3, 2 and 1, and no other: the ranking is fixed,
    wherever they occur. *)
Lemma top_ents_three all_ents x y z :
  count_occ string_dec all_ents x = 3 ->
  count_occ string_dec all_ents y = 2 ->
  count_occ string_dec all_ents z = 1 ->
  (forall e, In e all_ents -> e = x \/ e = y \/ e = z) ->
  top_ents all_ents = [(x, 3); (y, 2); (z, 1)].
Proof.
  intros Hx Hy Hz Hall.
  assert (Hxy : x <> y) by (intros ->; lia).
  assert (Hxz : x <> z) by (intros ->; lia).
  assert (Hyz : y <> z) by (intros ->; lia).
  assert (Hlen : List.length (top_ents all_ents) = 3).
  { rewrite top_ents_length.
    assert (P : Permutation (nodup string_dec all_ents) [x; y; z]).
    { apply NoDup_Permutation; [apply NoDup_nodup| |].
      - repeat constructor; simpl; intuition congruence.
      - intros e. rewrite nodup_In. split; [intros H; apply Hall in H; simpl; intuition auto|].
        intros [<-|[<-|[<-|[]]]];
          apply (count_occ_In string_dec); lia. }
    now rewrite (Permutation_length P). }
  pose proof (top_ents_nodup all_ents) as Hnd.
  pose proof (top_ents_sorted all_ents) as Hs.
  assert (Hin : forall k c, In (k, c) (top_ents all_ents) ->
                  (k = x /\ c = 3) \/ (k = y /\ c = 2) \/ (k = z /\ c = 1)).
  { intros k c H. apply top_ents_incl, Counter_in in H. destruct H as [Hk ->].
    destruct (Hall k Hk) as [-> | [-> | ->]]; auto. }
  destruct (top_ents all_ents) as [|[k1 c1] [|[k2 c2] [|[k3 c3] [|? ?]]]];
    try discriminate.
  pose proof (Hin k1 c1 (or_introl eq_refl)) as H1.
  pose proof (Hin k2 c2 (or_intror (or_introl eq_refl))) as H2.
  pose proof (Hin k3 c3 (or_intror (or_intror (or_introl eq_refl)))) as H3.
  simpl in Hnd. inversion Hnd as [|? ? N1 Hnd1]; subst.
  inversion Hnd1 as [|? ? N2 _]; subst. simpl in N1, N2.
  inversion Hs as [|? ? Hs1 F1]; subst. inversion Hs1 as [|? ? _ F2]; subst.
  inversion F1 as [|? ? G12 F1']; subst. inversion F1' as [|? ? G13 _]; subst.
  inversion F2 as [|? ? G23 _]; subst. unfold count_ge in *. simpl in *.
  destruct H1 as [[-> ->]|[[-> ->]|[-> ->]]];
    destruct H2 as [[-> ->]|[[-> ->]|[-> ->]]];
    destruct H3 as [[-> ->]|[[-> ->]|[-> ->]]];
    try reflexivity; try lia; exfalso; tauto.
Qed.

(** C3.  On an entities column of lists of (text, label) pairs the flattened
    list is the texts in order, labels dropped; every entry of the ranking
    is a text met, with the number of its occurrences, equal texts being
    those that are the same string; no text is ranked twice; the ranking has
    five entries, or as many as there are distinct texts when fewer; it is in
    descending order of count; a text left out is counted no more than any
    ranked one; the ranking is what [show_stats] prints; upper and lower
    case are different texts; and when London is met 3 times, Paris twice,
    Berlin once and nothing else, the ranking is London 3, Paris 2,
    Berlin 1. *)
Theorem top_entities_by_count (rows : list (list (string * string))) df st :
  lookup_column "entities" (columns df) = Some (map CPairs rows) ->
  let all_ents := map fst (List.concat rows) in
  flatten_entities (map CPairs rows) = Ok all_ents /\
  (forall e c, In (e, c) (top_ents all_ents) ->
               In e all_ents /\ c = count_occ string_dec all_ents e) /\
  NoDup (map fst (top_ents all_ents)) /\
  List.length (top_ents all_ents) =
    Nat.min 5 (List.length (nodup string_dec all_ents)) /\
  StronglySorted count_ge (top_ents all_ents) /\
  (forall e p, In e all_ents -> ~ In e (map fst (top_ents all_ents)) ->
               In p (top_ents all_ents) ->
               count_occ string_dec all_ents e <= snd p) /\
  (all_ents <> [] ->
   show_stats df st =
   (Ok tt,
    mkState (stdout st ++ (nl ++ " Top 5 Entities Found in Headlines:")%string
                       :: map entity_line (top_ents all_ents))
            (written st))) /\
  top_ents ["London"; "london"; "London"] = [("London", 2); ("london", 1)] /\
  (count_occ string_dec all_ents "London" = 3 ->
   count_occ string_dec all_ents "Paris" = 2 ->
   count_occ string_dec all_ents "Berlin" = 1 ->
   (forall e, In e all_ents -> e = "London" \/ e = "Paris" \/ e = "Berlin") ->
   top_ents all_ents = [("London", 3); ("Paris", 2); ("Berlin", 1)]).
Proof.
  intros Hcol all_ents.
  pose proof (flatten_entities_pairs rows) as Hflat. fold all_ents in Hflat.
  split; [exact Hflat|].
  split; [intros e c H; now apply Counter_in, top_ents_incl|].
  split; [apply top_ents_nodup|].
  split; [apply top_ents_length|].
  split; [apply top_ents_sorted|].
  split; [intros e p; apply top_ents_highest|].
  split; [intros Hne; now apply (show_stats_ranking _ _ Hcol Hflat)|].
  split; [reflexivity|].
  apply top_ents_three.
Qed.

Lemma top_entities_by_count_witness :
  show_stats
    (mkDataFrame 6
       [("title", [CStr "a"; CStr "b"; CStr "c"; CStr "d"; CStr "e"; CStr "f"]);
        ("entities",
         [CPairs [("Paris", "GPE")]; CPairs [("London", "GPE")];
          CPairs [("Berlin", "GPE")]; CPairs [("London", "ORG")];
          CPairs [("Paris", "GPE")]; CPairs [("London", "GPE")]])])
    initial =
  (Ok tt,
   mkState [(nl ++ " Top 5 Entities Found in Headlines:")%string;
            "   - London: 3"; "   - Paris: 2"; "   - Berlin: 1"] []).
Proof.
  pose (rows := [[("Paris", "GPE")]; [("London", "GPE")]; [("Berlin", "GPE")];
                 [("London", "ORG")]; [("Paris", "GPE")]; [("London", "GPE")]]).
  pose (df := mkDataFrame 6
       [("title", [CStr "a"; CStr "b"; CStr "c"; CStr "d"; CStr "e"; CStr "f"]);
        ("entities", map CPairs rows)]).
  destruct (@top_entities_by_count rows df initial eq_refl)
    as (_ & _ & _ & _ & _ & _ & Hshow & _ & Hthree).
  change (show_stats df initial =
          (Ok tt,
           mkState ((nl ++ " Top 5 Entities Found in Headlines:")%string
                    :: map entity_line [("London", 3); ("Paris", 2); ("Berlin", 1)])
                   [])).
  rewrite <- Hthree.
  - apply Hshow. discriminate.
  - reflexivity.
  - reflexivity.
  - reflexivity.
  - simpl. intuition.
Defined.

(** * Further properties of the pipeline *)

(** ** Errors that are not caught *)

(** X1.  [load_data] catches FileNotFoundError only: any other exception of
    the reader leaves [load_data] and [main] as it is, nothing printed,
    nothing written. *)
Theorem read_error_propagates env e st :
  read_csv env INPUT_FILE = Raise e ->
  isinstance_FileNotFoundError e = false ->
  load_data env INPUT_FILE st = (Raise e, st) /\
  main env st = (Raise e, st).
Proof.
  intros Hread He.
  pose proof (@load_data_uncaught env INPUT_FILE e st Hread He) as L.
  split; [exact L|]. unfold main. unfold bind at 1. now rewrite L.
Qed.

Lemma read_error_propagates_witness :
  main (mkEnv (fun _ => Raise PermissionError) (fun _ => Ok Demo.nlp)
              (fun _ => None)) initial =
  (Raise PermissionError, initial).
Proof.
  exact (proj2 (@read_error_propagates
                  (mkEnv (fun _ => Raise PermissionError)
                         (fun _ => Ok Demo.nlp) (fun _ => None))
                  PermissionError initial eq_refl eq_refl)).
Defined.

(** X2.  Only OSError and its subclasses count as a missing model: any other
    exception of [spacy.load] leaves [process_nlp] with nothing printed, and
    leaves [main] after the load message, nothing written. *)
Theorem model_error_propagates env df e st :
  read_csv env INPUT_FILE = Ok df ->
  spacy_load env model_name = Raise e ->
  isinstance_OSError e = false ->
  process_nlp env df st = (Raise e, st) /\
  main env st =
    (Raise e,
     after_print ("Loaded " ++ INPUT_FILE ++ " with " ++ str_of_nat (nrows df)
                  ++ " rows.") st).
Proof.
  intros Hread Hload He.
  assert (Hp : forall s, process_nlp env df s = (Raise e, s)).
  { intros s. unfold process_nlp. fold model_name. now rewrite Hload, He. }
  split; [apply Hp|]. unfold main. unfold bind at 1.
  rewrite (@load_data_ok env INPUT_FILE df st Hread).
  unfold bind at 1. now rewrite Hp.
Qed.

Lemma model_error_propagates_witness :
  main (mkEnv (fun _ => Ok Demo.headlines)
              (fun _ => Raise (ValueError "config")) (fun _ => None)) initial =
  (Raise (ValueError "config"),
   mkState ["Loaded data/bbc_news.csv with 3 rows."] []).
Proof.
  exact (proj2 (@model_error_propagates
                  (mkEnv (fun _ => Ok Demo.headlines)
                         (fun _ => Raise (ValueError "config")) (fun _ => None))
                  Demo.headlines (ValueError "config") initial
                  eq_refl eq_refl eq_refl)).
Defined.

(** ** A full run *)

Lemma show_stats_lines df column all_ents st :
  lookup_column "entities" (columns df) = Some column ->
  flatten_entities column = Ok all_ents ->
  show_stats df st =
  (Ok tt, mkState (stdout st ++ stats_lines all_ents) (written st)).
Proof.
  intros Hcol Hflat. destruct all_ents as [|e es].
  - now rewrite (@show_stats_nothing df column st Hcol Hflat).
  - rewrite (@show_stats_ranking df column (e :: es) st Hcol Hflat)
      by discriminate.
    reflexivity.
Qed.

Lemma tagged_flatten nlp titles :
  flatten_entities (map (entities_of nlp) titles) =
  Ok (tagged_entity_texts nlp titles).
Proof.
  unfold tagged_entity_texts. rewrite <- flatten_entities_pairs.
  now rewrite map_map.
Qed.

(** A run up to the point of saving. *)
Lemma main_until_save env nlp df titles st :
  read_csv env INPUT_FILE = Ok df ->
  spacy_load env model_name = Ok nlp ->
  lookup_column "title" (columns df) = Some titles ->
  well_formed df ->
  nrows df <> 0 ->
  main env st =
  (to_csv env (tagged nlp df titles) OUTPUT_FILE ;;;
   print (nl ++ " Processed data saved successfully to: " ++ OUTPUT_FILE))
    (mkState (stdout st ++ run_lines nlp df titles) (written st)).
Proof.
  intros Hread Hload Htitle Hwf Hrows.
  pose proof (@well_formed_column_length df "title" titles Hwf Htitle) as Hlen.
  unfold main. unfold bind at 1.
  rewrite (@load_data_ok env INPUT_FILE df st Hread). unfold bind at 1.
  rewrite (@process_nlp_tagged env nlp df titles _ Hload Htitle Hlen Hrows).
  unfold bind at 1.
  rewrite (@show_stats_lines _ _ _ _ (tagged_entities nlp df titles)
             (tagged_flatten nlp titles)).
  unfold after_print, run_lines. cbn [stdout written].
  rewrite <- !app_assoc. reflexivity.
Qed.

(** X3.  On a well-formed table with a title column and at least one row,
    the model loaded and the output writable, [main] returns normally, has
    printed the load message, the progress notice, the statistics and the
    confirmation, in this order and nothing else, and has written the tagged
    table at the output path, once. *)
Theorem main_success_transcript env nlp df titles st :
  read_csv env INPUT_FILE = Ok df ->
  spacy_load env model_name = Ok nlp ->
  lookup_column "title" (columns df) = Some titles ->
  well_formed df ->
  nrows df <> 0 ->
  to_csv_error env OUTPUT_FILE = None ->
  main env st =
  (Ok tt,
   mkState (stdout st ++ run_lines nlp df titles ++
              [(nl ++ " Processed data saved successfully to: " ++ OUTPUT_FILE)%string])
           (written st ++ [(OUTPUT_FILE, tagged nlp df titles)])).
Proof.
  intros Hread Hload Htitle Hwf Hrows Hcsv.
  rewrite (@main_until_save env nlp df titles st Hread Hload Htitle Hwf Hrows).
  unfold bind, to_csv, print. rewrite Hcsv. cbn [stdout written].
  now rewrite <- app_assoc.
Qed.

Lemma main_success_transcript_witness :
  stdout (snd (main Demo.env initial)) =
  ["Loaded data/bbc_news.csv with 3 rows.";
   "Processing text (this may take a moment)...";
   (nl ++ " Top 5 Entities Found in Headlines:")%string;
   "   - London: 1"; "   - Paris: 1";
   (nl ++ " Processed data saved successfully to: data/bbc_news_tagged.csv")%string].
Proof.
  exact (f_equal (fun r => stdout (snd r))
           (@main_success_transcript Demo.env Demo.nlp Demo.headlines _ initial
              eq_refl eq_refl eq_refl headlines_well_formed
              (fun H => O_S _ (eq_sym H)) eq_refl)).
Defined.

(** X4.  On the same tables, when writing the output raises, [main] ends with
    that exception after the statistics: no confirmation is printed and no
    file is recorded as written. *)
Theorem write_error_propagates env nlp df titles e st :
  read_csv env INPUT_FILE = Ok df ->
  spacy_load env model_name = Ok nlp ->
  lookup_column "title" (columns df) = Some titles ->
  well_formed df ->
  nrows df <> 0 ->
  to_csv_error env OUTPUT_FILE = Some e ->
  main env st =
  (Raise e, mkState (stdout st ++ run_lines nlp df titles) (written st)).
Proof.
  intros Hread Hload Htitle Hwf Hrows Hcsv.
  rewrite (@main_until_save env nlp df titles st Hread Hload Htitle Hwf Hrows).
  unfold bind, to_csv. now rewrite Hcsv.
Qed.

Lemma write_error_propagates_witness :
  main (mkEnv (fun _ => Ok Demo.headlines) (fun _ => Ok Demo.nlp)
              (fun _ => Some PermissionError)) initial =
  (Raise PermissionError,
   mkState ["Loaded data/bbc_news.csv with 3 rows.";
            "Processing text (this may take a moment)...";
            (nl ++ " Top 5 Entities Found in Headlines:")%string;
            "   - London: 1"; "   - Paris: 1"] []).
Proof.
  exact (@write_error_propagates
           (mkEnv (fun _ => Ok Demo.headlines) (fun _ => Ok Demo.nlp)
                  (fun _ => Some PermissionError))
           Demo.nlp Demo.headlines _ PermissionError initial
           eq_refl eq_refl eq_refl headlines_well_formed
           (fun H => O_S _ (eq_sym H)) eq_refl).
Defined.

(** ** The model missing *)



(** ** The annotator, again *)

Lemma assign_column_same name v cols :
  lookup_column name cols = Some v -> assign_column name v cols = cols.
Proof.
  induction cols as [|[n old] rest IH]; simpl; [discriminate|].
  destruct (String.eqb name n) eqn:E.
  - intros [= ->]. reflexivity.
  - intros H. now rewrite IH.
Qed.

Lemma tagged_title nlp df titles :
  lookup_column "title" (columns (tagged nlp df titles)) =
  lookup_column "title" (columns df).
Proof.
  unfold tagged. cbn [columns]. now rewrite !lookup_assign_other by discriminate.
Qed.

Lemma tagged_twice nlp df titles :
  tagged nlp (tagged nlp df titles) titles = tagged nlp df titles.
Proof.
  unfold tagged at 1. cbn [nrows].
  pose proof (tagged_entities nlp df titles) as He.
  pose proof (tagged_pos_tags nlp df titles) as Hp.
  rewrite (assign_column_same _ _ He), (assign_column_same _ _ Hp).
  reflexivity.
Qed.

(** X6.  Annotating twice is annotating once: on a well-formed table with a
    title column and at least one row, the model loaded, [process_nlp]
    applied to its own result returns that result again. *)
Theorem process_nlp_idempotent env nlp df titles st :
  spacy_load env model_name = Ok nlp ->
  lookup_column "title" (columns df) = Some titles ->
  well_formed df ->
  nrows df <> 0 ->
  exists df' st',
    process_nlp env df st = (Ok df', st') /\
    fst (process_nlp env df' st') = Ok df'.
Proof.
  intros Hload Htitle Hwf Hrows.
  pose proof (@well_formed_column_length df "title" titles Hwf Htitle) as Hlen.
  exists (tagged nlp df titles),
         (after_print "Processing text (this may take a moment)..." st).
  split; [now apply process_nlp_tagged|].
  rewrite (@process_nlp_tagged env nlp (tagged nlp df titles) titles _ Hload).
  - cbn [fst]. now rewrite tagged_twice.
  - now rewrite tagged_title.
  - exact Hlen.
  - exact Hrows.
Qed.

Lemma process_nlp_idempotent_witness :
  exists df' st',
    process_nlp Demo.env Demo.headlines initial = (Ok df', st') /\
    fst (process_nlp Demo.env df' st') = Ok df'.
Proof.
  exact (@process_nlp_idempotent Demo.env Demo.nlp Demo.headlines _ initial
           eq_refl eq_refl headlines_well_formed (fun H => O_S _ (eq_sym H))).
Defined.

(** X7.  [process_nlp] keeps a table well formed: when it returns, every
    column of the result, the two new ones included, is as long as the index
    and no column name is repeated. *)
Theorem process_nlp_keeps_well_formed env df st df' st' :
  well_formed df ->
  process_nlp env df st = (Ok df', st') ->
  well_formed df'.
Proof.
  intros Hwf Hp.
  destruct (@process_nlp_returns env df st df' st' Hp)
    as [->|(nlp & titles & _ & _ & Hlen & ->)].
  - exact Hwf.
  - now apply tagged_well_formed.
Qed.

Lemma process_nlp_keeps_well_formed_witness :
  well_formed (tagged Demo.nlp Demo.headlines
                 [CStr "London calling"; CStr "rain in Paris"; CInt 2024]).
Proof.
  exact (@process_nlp_keeps_well_formed Demo.env Demo.headlines initial _ _
           headlines_well_formed eq_refl).
Defined.

(** ** The statistics, again *)

Lemma list_sum_perm l1 l2 : Permutation l1 l2 -> list_sum l1 = list_sum l2.
Proof.
  induction 1; simpl; lia.
Qed.

Lemma list_sum_firstn n l : list_sum (firstn n l) <= list_sum l.
Proof.
  revert n. induction l as [|x l IH]; intros [|n]; simpl; try lia.
  specialize (IH n). lia.
Qed.

Lemma count_element_sum elem mapping :
  list_sum (map snd (count_element elem mapping)) =
  S (list_sum (map snd mapping)).
Proof.
  induction mapping as [|[k c] rest IH]; simpl; [reflexivity|].
  destruct (String.eqb elem k); simpl; lia.
Qed.

Lemma Counter_sum l : list_sum (map snd (Counter l)) = List.length l.
Proof.
  induction l as [|x p IH] using rev_ind; [reflexivity|].
  rewrite Counter_snoc, count_element_sum, IH, length_app. simpl. lia.
Qed.

Lemma top_ents_all l :
  List.length (nodup string_dec l) <= 5 ->
  top_ents l = sorted_desc (Counter l).
Proof.
  intros H. unfold top_ents, most_common. apply firstn_all2.
  now rewrite <- (Permutation_length (sorted_desc_perm _)), Counter_length.
Qed.

(** X8.  The counts printed never add up to more than the number of entity
    mentions, and they add up to exactly that number when there are at most
    five distinct entities. *)
Theorem ranked_counts_sum l :
  list_sum (map snd (top_ents l)) <= List.length l /\
  (List.length (nodup string_dec l) <= 5 ->
   list_sum (map snd (top_ents l)) = List.length l).
Proof.
  assert (Hs : list_sum (map snd (sorted_desc (Counter l))) = List.length l).
  { rewrite <- (list_sum_perm (Permutation_map snd (sorted_desc_perm _))).
    apply Counter_sum. }
  split.
  - unfold top_ents, most_common. rewrite <- Hs, <- firstn_map.
    apply list_sum_firstn.
  - intros H. now rewrite (top_ents_all _ H).
Qed.

Lemma ranked_counts_sum_witness :
  list_sum (map snd (top_ents ["London"; "Paris"; "London"])) = 3.
Proof.
  exact (proj2 (ranked_counts_sum ["London"; "Paris"; "London"])
           (le_S _ _ (le_S _ _ (le_S _ _ (le_n 2))))).
Defined.

(** X9.  With at most five distinct entities nothing is left out: every
    entity met is in the ranking, with the number of its occurrences. *)
Theorem few_entities_all_ranked l e :
  List.length (nodup string_dec l) <= 5 ->
  In e l ->
  In (e, count_occ string_dec l e) (top_ents l).
Proof.
  intros H He. rewrite (top_ents_all _ H).
  apply (Permutation_in _ (sorted_desc_perm _)). now apply Counter_in.
Qed.

Lemma few_entities_all_ranked_witness :
  In ("Paris", 1) (top_ents ["London"; "Paris"; "London"]).
Proof.
  exact (@few_entities_all_ranked ["London"; "Paris"; "London"] "Paris"
           (le_S _ _ (le_S _ _ (le_S _ _ (le_n 2))))
           (or_intror (or_introl eq_refl))).
Defined.

(** X10.  The first entry of the ranking is a most frequent entity: it is an
    entity met, with its number of occurrences, and no text occurs more
    often. *)
Theorem first_ranked_is_most_frequent l p rest e :
  top_ents l = p :: rest ->
  In (fst p) l /\
  snd p = count_occ string_dec l (fst p) /\
  count_occ string_dec l e <= snd p.
Proof.
  intros Htop.
  assert (Hp : In p (top_ents l)) by (rewrite Htop; now left).
  destruct p as [k c]. cbn [fst snd].
  destruct (proj1 (Counter_in k c l) (top_ents_incl _ _ Hp)) as [Hk Hc].
  split; [exact Hk|]. split; [exact Hc|].
  destruct (in_dec string_dec e l) as [He|He].
  - destruct (in_dec string_dec e (map fst (top_ents l))) as [Hin|Hout].
    + apply in_map_iff in Hin. destruct Hin as ([e' c'] & E & Hin).
      simpl in E. subst e'.
      destruct (proj1 (Counter_in e c' l) (top_ents_incl _ _ Hin)) as [_ Hc'].
      rewrite <- Hc'. pose proof (top_ents_sorted l) as Hs.
      rewrite Htop in Hs, Hin. inversion Hs as [|? ? _ Hall]; subst.
      destruct Hin as [[= _ ->]|Hin]; [lia|].
      rewrite Forall_forall in Hall. exact (Hall _ Hin).
    + exact (@top_ents_highest l e (k, c) He Hout Hp).
  - rewrite (proj1 (count_occ_not_In string_dec l e) He). lia.
Qed.

Lemma first_ranked_is_most_frequent_witness :
  count_occ string_dec ["Paris"; "London"; "London"] "Paris" <= 2.
Proof.
  exact (proj2 (proj2 (@first_ranked_is_most_frequent
                         ["Paris"; "London"; "London"] ("London", 2)
                         [("Paris", 1)] "Paris" eq_refl))).
Defined.

Lemma flatten_entities_iterable column :
  forallb iterable column = true ->
  exists all_ents, flatten_entities column = Ok all_ents.
Proof.
  induction column as [|c rest IH]; simpl; [eauto|].
  intros H. apply andb_prop in H. destruct H as [Hc Hrest].
  destruct (IH Hrest) as (more & ->).
  destruct c; try discriminate; simpl; eauto.
Qed.

Lemma flatten_entities_not_iterable column :
  forallb iterable column = false ->
  exists msg, flatten_entities column = Raise (TypeError msg).
Proof.
  induction column as [|c rest IH]; simpl; [discriminate|].
  intros H. apply andb_false_iff in H.
  destruct (iterable c) eqn:Hc.
  - destruct H as [H|H]; [discriminate|]. destruct (IH H) as (msg & ->).
    destruct c; try discriminate; simpl; eauto.
  - destruct c; try discriminate; simpl; eauto.
Qed.

(** X11.  Given an entities column, [show_stats] returns normally exactly
    when every cell of it is a text or a list; when some cell is a number
    (a missing value is the float nan) it raises TypeError, having printed
    nothing. *)
Theorem show_stats_needs_iterable_cells df column st :
  lookup_column "entities" (columns df) = Some column ->
  (forallb iterable column = true -> fst (show_stats df st) = Ok tt) /\
  (forallb iterable column = false ->
   exists msg, show_stats df st = (Raise (TypeError msg), st)).
Proof.
  intros Hcol. split; intros H.
  - destruct (flatten_entities_iterable _ H) as (all_ents & Hflat).
    now rewrite (@show_stats_lines df column all_ents st Hcol Hflat).
  - destruct (flatten_entities_not_iterable _ H) as (msg & Hflat).
    exists msg. exact (@show_stats_raises df column _ st Hcol Hflat).
Qed.

Lemma show_stats_needs_iterable_cells_witness :
  exists msg,
    show_stats (mkDataFrame 2 [("title", [CStr "rain"; CStr "wind"]);
                               ("entities", [CStr "Paris"; CFloat "nan"])])
               initial =
    (Raise (TypeError msg), initial).
Proof.
  exact (proj2 (@show_stats_needs_iterable_cells
                  (mkDataFrame 2 [("title", [CStr "rain"; CStr "wind"]);
                                  ("entities", [CStr "Paris"; CFloat "nan"])])
                  [CStr "Paris"; CFloat "nan"] initial eq_refl)
           eq_refl).
Defined.

Lemma stats_lines_length all_ents : List.length (stats_lines all_ents) <= 6.
Proof.
  destruct all_ents as [|e es]; simpl; [lia|].
  rewrite length_map, top_ents_length. lia.
Qed.

(** X12.  [show_stats] prints at most six lines (a title and five entries),
    whatever the table, and leaves the files as they are. *)
Theorem show_stats_at_most_six_lines df st :
  exists lines,
    snd (show_stats df st) = mkState (stdout st ++ lines) (written st) /\
    List.length lines <= 6.
Proof.
  destruct (lookup_column "entities" (columns df)) as [column|] eqn:Hcol.
  - destruct (flatten_entities column) as [all_ents|e] eqn:Hflat.
    + exists (stats_lines all_ents).
      rewrite (@show_stats_lines df column all_ents st Hcol Hflat).
      split; [reflexivity | apply stats_lines_length].
    + exists []. rewrite (@show_stats_raises df column e st Hcol Hflat).
      cbn [snd List.length]. rewrite app_nil_r.
      split; [now destruct st | lia].
  - exists []. rewrite (@show_stats_no_column df st Hcol).
    cbn [snd List.length]. rewrite app_nil_r. split; [now destruct st | lia].
Qed.

(** ** What is written *)

Lemma main_outcome env st r st' :
  main env st = (r, st') ->
  written st' = written st \/
  (r = Ok tt /\ exists df, written st' = written st ++ [(OUTPUT_FILE, df)]).
Proof.
  unfold main. unfold bind at 1.
  pose proof (keeps_load_data env INPUT_FILE st) as H0.
  destruct (load_data env INPUT_FILE st) as [[[df|]|e] s0]; cbn [snd] in H0.
  2:{ intros [= <- <-]. now left. }
  2:{ intros [= <- <-]. now left. }
  unfold bind at 1. pose proof (keeps_process_nlp env df s0) as H1.
  destruct (process_nlp env df s0) as [[df'|e] s1]; cbn [snd] in H1.
  2:{ intros [= <- <-]. left. congruence. }
  unfold bind at 1. pose proof (keeps_show_stats df' s1) as H2.
  destruct (show_stats df' s1) as [[[]|e] s2]; cbn [snd] in H2.
  2:{ intros [= <- <-]. left. congruence. }
  unfold bind, to_csv, print.
  destruct (to_csv_error env OUTPUT_FILE).
  - intros [= <- <-]. left. congruence.
  - intros [= <- <-]. right. split; [reflexivity|]. exists df'.
    cbn [written]. congruence.
Qed.

(** X13.  [main] writes nothing unless it returns normally: when it ends
    with an exception, whichever, the files are as before; otherwise it has
    written at most one file, at the output path. *)
Theorem main_writes_only_on_success env st :
  written (snd (main env st)) = written st \/
  (fst (main env st) = Ok tt /\
   exists df, written (snd (main env st)) = written st ++ [(OUTPUT_FILE, df)]).
Proof.
  destruct (main env st) as [r st'] eqn:E. exact (main_outcome _ _ E).
Qed.

(** X14.  The statistics depend on the entity texts in order and on nothing
    else: two entities columns with the same texts in the same order,
    however labelled and however spread over the rows, give the same
    output. *)
Theorem show_stats_ignores_labels_and_rows
  (rows1 rows2 : list (list (string * string))) df1 df2 st :
  lookup_column "entities" (columns df1) = Some (map CPairs rows1) ->
  lookup_column "entities" (columns df2) = Some (map CPairs rows2) ->
  map fst (List.concat rows1) = map fst (List.concat rows2) ->
  show_stats df1 st = show_stats df2 st.
Proof.
  intros H1 H2 E.
  rewrite (@show_stats_lines df1 _ _ st H1 (flatten_entities_pairs rows1)).
  rewrite (@show_stats_lines df2 _ _ st H2 (flatten_entities_pairs rows2)).
  now rewrite E.
Qed.

Lemma show_stats_ignores_labels_and_rows_witness :
  show_stats (mkDataFrame 2 [("entities",
                [CPairs [("London", "GPE"); ("Paris", "GPE")]; CPairs []])])
             initial =
  show_stats (mkDataFrame 2 [("entities",
                [CPairs [("London", "ORG")]; CPairs [("Paris", "LOC")]])])
             initial.
Proof.
  exact (@show_stats_ignores_labels_and_rows
           [[("London", "GPE"); ("Paris", "GPE")]; []]
           [[("London", "ORG")]; [("Paris", "LOC")]]
           (mkDataFrame 2 [("entities",
                [CPairs [("London", "GPE"); ("Paris", "GPE")]; CPairs []])])
           (mkDataFrame 2 [("entities",
                [CPairs [("London", "ORG")]; CPairs [("Paris", "LOC")]])])
           initial eq_refl eq_refl eq_refl).
Defined.
